(** * create-express-app generator (index.js): a shallow embedding

    The program is one async function, [createApp], that asks four
    questions, creates a directory tree, writes a handful of files
    rendered from template literals, looks up package versions and
    writes a manifest.  Everything it touches from outside (the prompt,
    the [fs] module, the version resolver) is taken here as an
    interface; the template literals and the control flow are
    transcribed from the source. *)

From Stdlib Require Import Ascii String List ZArith Lia Bool.
From stdpp Require Import base option list strings gmap.
Import ListNotations.

(** ** Text helpers *)

Module Text.

(** The double-quote character, as a one-character string. *)
Definition dq : string := String (ascii_of_nat 34) EmptyString.

(** The line feed written [\n] in the source. *)
Definition nl : string := String (ascii_of_nat 10) EmptyString.

(** [q s] is [s] between double quotes. *)
Definition q (s : string) : string := dq +:+ s +:+ dq.

(** [Array.prototype.join]. *)
Definition join (sep : string) (xs : list string) : string :=
  String.concat sep xs.

(** A template literal that spans several source lines: the lines,
    separated by line feeds. *)
Definition lines (xs : list string) : string := join nl xs.

(** [n] spaces of indentation inside a template literal. *)
Fixpoint sp (n : nat) : string :=
  match n with
  | O => EmptyString
  | S k => String " "%char (sp k)
  end.

(** [occurs needle hay]: does [needle] occur in [hay]
    ([String.prototype.includes])? *)
Fixpoint occurs (needle hay : string) : bool :=
  String.prefix needle hay ||
  match hay with
  | EmptyString => false
  | String _ rest => occurs needle rest
  end.

End Text.
Import Text.

(** ** The fixed data of index.js *)

(** The prompt list handed to [inquirer.prompt]. *)
Inductive question_type := TInput | TConfirm.
Inductive question_default := DString (s : string) | DBool (b : bool).
Record question := {
  q_type : question_type;
  q_name : string;
  q_message : string;
  q_default : question_default
}.

Definition questions : list question := [
  {| q_type := TInput; q_name := "name";
     q_message := "Enter project name:"; q_default := DString "myapp" |};
  {| q_type := TConfirm; q_name := "useCors";
     q_message := "Do you want to enable CORS?"; q_default := DBool false |};
  {| q_type := TConfirm; q_name := "useErrorHandler";
     q_message := "Do you want to use a basic error handler?";
     q_default := DBool true |};
  {| q_type := TConfirm; q_name := "useEnvFile";
     q_message := "Do you want to use an environment file?";
     q_default := DBool true |}
].

(** The answers object [inquirer.prompt] resolves to. *)
Record Answer := {
  name : string;
  useCors : bool;
  useErrorHandler : bool;
  useEnvFile : bool
}.

(** What one [getLatestVersion] call resolves to. *)
Record Descriptor := { dep_name : string; dep_version : string }.

(** [jsErrorMiddleware]: the text of middlewares/error.js. *)
Definition jsErrorMiddleware : string := lines [
  "import {envMode} from " +:+ q "../app.js";
  "";
  "export const errorMiddleware = (err, req, res, next)=> {";
  "";
  "  err.message = err.message || " +:+ q "Internal Server Error" +:+ ";";
  "  err.statusCode = err.statusCode || 500;";
  "  ";
  "  const response = {";
  "    success: false,";
  "    message: err.message,";
  "  };";
  "";
  "  if (envMode === " +:+ q "DEVELOPMENT" +:+ ") {";
  "    response.error = err;";
  "  }";
  "";
  "  return res.status(err.statusCode).json(response);";
  "};";
  ""
].

(** [jsErrorHandler]: the text of utils/errorHandler.js. *)
Definition jsErrorHandler : string := lines [
  " export default class ErrorHandler extends Error {";
  "    constructor(statusCode, message=" +:+ q "something went wrong" +:+ ") {";
  "      super(message);";
  "      this.statusCode = statusCode;";
  "    }";
  "}"
].

(** ** Rendering the entry point (app.js) *)

Definition expressImport : string :=
  "import express from " +:+ q "express" +:+ ";".
Definition corsImport : string := "import cors from " +:+ q "cors".
Definition errorMiddlewareImport : string :=
  "import { errorMiddleware } from " +:+ q "./middlewares/error.js".
Definition dotenvImport : string :=
  "import dotenv from " +:+ q "dotenv" +:+ ";".

Definition jsonMiddleware : string := "app.use(express.json());".
Definition urlencodedMiddleware : string :=
  "app.use(express.urlencoded({extended: true}));".
Definition corsMiddleware : string :=
  "app.use(cors({origin: '*', credentials: true}))".

Definition dotenvConfigLine : string := "dotenv.config({path: './env'});".
Definition errorMiddlewareUse : string := "app.use(errorMiddleware);".
Definition envFileContent : string := "PORT=5000".

(** [importLines] after the three conditional [push]es. *)
Definition importLines (answer : Answer) : list string :=
  [expressImport]
  ++ (if useCors answer then [corsImport] else [])
  ++ (if useErrorHandler answer then [errorMiddlewareImport] else [])
  ++ (if useEnvFile answer then [dotenvImport] else []).

(** [middlewareLines] after the conditional [push]. *)
Definition middlewareLines (answer : Answer) : list string :=
  [jsonMiddleware; urlencodedMiddleware]
  ++ (if useCors answer then [corsMiddleware] else []).

(** The part of the [baseFileContent] literal between the two
    interpolated line lists. *)
Definition baseFileMiddle (answer : Answer) : string := lines [
  "";
  sp 8 +:+ (if useEnvFile answer then dotenvConfigLine else "");
  sp 8 +:+ "export const envMode = process.env.NODE_ENV?.trim() || 'DEVELOPMENT';";
  sp 8 +:+ "const port = process.env.PORT || 3000;";
  "";
  sp 8 +:+ "const app = express();";
  "";
  sp 8
].

(** The part of the [baseFileContent] literal after the middleware lines. *)
Definition baseFileTail (answer : Answer) : string := lines [
  "";
  "";
  sp 8 +:+ "app.get('/', (req,res) => {";
  sp 12 +:+ "res.send(" +:+ q "Hello World!" +:+ ");";
  sp 8 +:+ "});";
  "";
  sp 8 +:+ "// your routes here";
  "";
  sp 8 +:+ "app.get(" +:+ q "*" +:+ ", (req, res) => {";
  sp 12 +:+ "res.status(404).json({";
  sp 16 +:+ "success: false,";
  sp 16 +:+ "message: 'page not found'";
  sp 12 +:+ "})";
  sp 8 +:+ "});";
  "";
  sp 8 +:+ (if useErrorHandler answer then errorMiddlewareUse else "");
  "";
  sp 8 +:+ "app.listen(port, ()=> {";
  sp 12 +:+ "console.log('Server is working on port:'+port+' in '+envMode+' Mode. ')";
  sp 8 +:+ "});";
  sp 8
].

(** [baseFileContent]: the text of app.js. *)
Definition baseFileContent (answer : Answer) : string :=
  join nl (importLines answer)
  +:+ baseFileMiddle answer
  +:+ join nl (middlewareLines answer)
  +:+ baseFileTail answer.

(** ** Rendering the manifest (package.json) *)

(** [JSON.stringify] on a string: the quoted form, with the escapes of
    ECMA-262 QuoteJSONString for the characters below U+0080. *)
Definition hex_digit (n : nat) : ascii :=
  nth n (list_ascii_of_string "0123456789abcdef") "0"%char.

Definition quote_char (c : ascii) : string :=
  let n := nat_of_ascii c in
  if Nat.eqb n 34 then "\" +:+ dq
  else if Nat.eqb n 92 then "\\"
  else if Nat.eqb n 8 then "\b"
  else if Nat.eqb n 12 then "\f"
  else if Nat.eqb n 10 then "\n"
  else if Nat.eqb n 13 then "\r"
  else if Nat.eqb n 9 then "\t"
  else if Nat.ltb n 32 then
    "\u00" +:+ String (hex_digit (n / 16)) (String (hex_digit (n mod 16)) "")
  else String c "".

Fixpoint quote_chars (s : string) : string :=
  match s with
  | EmptyString => ""
  | String c rest => quote_char c +:+ quote_chars rest
  end.

Definition quote_json_string (s : string) : string :=
  dq +:+ quote_chars s +:+ dq.

(** [JSON.stringify] on an object literal whose values are strings
    (the only use in index.js): no white space, keys in insertion order. *)
Definition JSON_stringify (o : list (string * string)) : string :=
  "{" +:+ join "," (map (fun kv => quote_json_string (fst kv) +:+ ":"
                                   +:+ quote_json_string (snd kv)) o)
  +:+ "}".

Definition npmScriptjs : string :=
  JSON_stringify [
    ("start", "set NODE_ENV=PRODUCTION & node app.js");
    ("dev", "npx nodemon app.js")
  ].

(** The arrow function mapped over the resolved descriptors. *)
Definition dependencyEntry (dependency : Descriptor) : string :=
  dq +:+ dep_name dependency +:+ dq +:+ ": "
  +:+ dq +:+ dep_version dependency +:+ dq.

(** The head of the [packageJsonContent] literal, up to the brace that
    opens the dependencies object. *)
Definition packageJsonHead (projectName : string) : string := lines [
  "{";
  sp 8 +:+ q "name" +:+ ": " +:+ dq +:+ projectName +:+ dq +:+ ",";
  sp 8 +:+ q "version" +:+ ": " +:+ q "1.0.0" +:+ ",";
  sp 8 +:+ q "description" +:+ ": " +:+ q "" +:+ ",";
  sp 8 +:+ q "main" +:+ ": " +:+ q "app.js" +:+ ",";
  sp 8 +:+ q "scripts" +:+ ": " +:+ npmScriptjs +:+ ",";
  sp 8 +:+ q "keywords" +:+ ": [],";
  sp 8 +:+ q "author" +:+ ": " +:+ q "" +:+ ",";
  sp 8 +:+ q "type" +:+ ": " +:+ q "module" +:+ ",";
  sp 8 +:+ q "license" +:+ ": " +:+ q "ISC" +:+ ",";
  sp 8 +:+ q "dependencies" +:+ ": {";
  sp 12
].

(** Between the two interpolated entry lists. *)
Definition packageJsonMiddle : string := lines [
  "";
  sp 8 +:+ "},";
  sp 8 +:+ q "devDependencies" +:+ ": {";
  sp 12
].

(** After the devDependencies entries: the brace that closes that
    object, a comma, and the closing brace of the literal. *)
Definition packageJsonTail : string := lines [
  "";
  sp 8 +:+ "},";
  sp 4 +:+ "}"
].

(** [packageJsonContent]: the text of package.json. *)
Definition packageJsonContent (projectName : string)
    (dependecies devDependecies : list string) : string :=
  packageJsonHead projectName
  +:+ join "," dependecies
  +:+ packageJsonMiddle
  +:+ join "," devDependecies
  +:+ packageJsonTail.

(** ** The outside world

    [createApp] talks to three things it does not define: the prompt
    library, Node's [fs] module and the version resolver
    [getLatestVersion], imported from
    ./getLatestVersion/latestVersion.js.  Each is an interface here:
    what a call returns or throws is given, never computed by the
    model. *)

(** The values that can be thrown at [createApp]. *)
Inductive error :=
| PromptError (message : string)
| FsError (syscall code path : string)
| LookupError (package message : string).

(** A call either returns a value or throws; an awaited promise either
    fulfils or rejects. *)
Inductive result (A : Type) :=
| Ok (a : A)
| Throw (e : error).
Arguments Ok {A} a.
Arguments Throw {A} e.

(** The three [fs] functions index.js calls. *)
Class FileSystem (FS : Type) := {
  existsSync : string -> FS -> bool;
  mkdirSync : string -> FS -> result FS;
  writeFileSync : string -> string -> FS -> result FS
}.

(** What one run is given from outside: how the prompt settles, how
    each version lookup settles, and, when several lookups of one
    batch reject, which of them rejects first ([Promise.all] rejects
    with that one). *)
Record World := {
  prompt : list question -> result Answer;
  getLatestVersion : string -> result Descriptor;
  firstToReject : nat
}.

(** [chalk] only decorates text; the decoration is kept as a tag. *)
Inductive chalkStyle := bgWhite | black | yellow | italic | bold | greenBright.
Inductive styled :=
| Plain (s : string)
| Chalk (c : chalkStyle) (t : styled).

(** An argument of [console.log]. *)
Inductive logged :=
| LogText (t : styled)
| LogError (e : error).

(** What a run does to the outside, in order: each [fs] call with its
    outcome ([None]: it returned, [Some e]: it threw [e]) and each
    [console.log]. *)
Inductive event :=
| EvMkdir (path : string) (outcome : option error)
| EvWrite (path content : string) (outcome : option error)
| EvLog (x : logged).

(** The state threaded through a run: the file system and the journal
    of what the run has done so far, oldest first. *)
Record State (FS : Type) := {
  fs : FS;
  journal : list event
}.
Arguments fs {FS} _.
Arguments journal {FS} _.

(** ** A state-and-exception monad for the body of [createApp] *)

Definition M (FS A : Type) : Type := State FS -> result A * State FS.

Definition ret {FS A} (a : A) : M FS A := fun s => (Ok a, s).

Definition bind {FS A B} (m : M FS A) (k : A -> M FS B) : M FS B :=
  fun s =>
    match m s with
    | (Ok a, s') => k a s'
    | (Throw e, s') => (Throw e, s')
    end.

#[global] Instance M_ret {FS} : MRet (M FS) := fun A a => ret a.
#[global] Instance M_bind {FS} : MBind (M FS) := fun A B k m => bind m k.

(** [await p]: the value of a settled promise, or its rejection thrown. *)
Definition await {FS A} (p : result A) : M FS A := fun s => (p, s).

(** [if (c) { m }]. *)
Definition when {FS} (c : bool) (m : M FS unit) : M FS unit :=
  if c then m else ret tt.

(** [try { body } catch (error) { handler(error) }]; also
    [promise.catch(handler)]. *)
Definition try_catch {FS A} (body : M FS A) (handler : error -> M FS A)
    : M FS A :=
  fun s =>
    match body s with
    | (Ok a, s') => (Ok a, s')
    | (Throw e, s') => handler e s'
    end.

Definition console_log {FS} (x : logged) : M FS unit :=
  fun s => (Ok tt, {| fs := fs s; journal := journal s ++ [EvLog x] |}).

(** [Promise.all]: the values in order when every promise fulfils,
    otherwise the rejection that came first. *)
Fixpoint rejections {A} (ps : list (result A)) : list error :=
  match ps with
  | [] => []
  | Ok _ :: rest => rejections rest
  | Throw e :: rest => e :: rejections rest
  end.

Fixpoint fulfilled {A} (ps : list (result A)) : list A :=
  match ps with
  | [] => []
  | Ok a :: rest => a :: fulfilled rest
  | Throw _ :: rest => fulfilled rest
  end.

Definition Promise_all {A} (first : nat) (ps : list (result A))
    : result (list A) :=
  match rejections ps with
  | [] => Ok (fulfilled ps)
  | e :: es => Throw (nth (first mod length (e :: es)) (e :: es) e)
  end.

Section Generator.

Context {FS : Type} `{FileSystem FS}.

Definition fs_existsSync (path : string) : M FS bool :=
  fun s => (Ok (existsSync path (fs s)), s).

Definition fs_mkdirSync (path : string) : M FS unit :=
  fun s =>
    match mkdirSync path (fs s) with
    | Ok fs' =>
        (Ok tt, {| fs := fs'; journal := journal s ++ [EvMkdir path None] |})
    | Throw e =>
        (Throw e,
         {| fs := fs s; journal := journal s ++ [EvMkdir path (Some e)] |})
    end.

Definition fs_writeFileSync (path content : string) : M FS unit :=
  fun s =>
    match writeFileSync path content (fs s) with
    | Ok fs' =>
        (Ok tt,
         {| fs := fs'; journal := journal s ++ [EvWrite path content None] |})
    | Throw e =>
        (Throw e,
         {| fs := fs s;
            journal := journal s ++ [EvWrite path content (Some e)] |})
    end.

(** The promises [dependenciesPromise] holds after its two
    conditional [push]es. *)
Definition dependenciesPromise (w : World) (answer : Answer)
    : list (result Descriptor) :=
  [getLatestVersion w "express"]
  ++ (if useCors answer then [getLatestVersion w "cors"] else [])
  ++ (if useEnvFile answer then [getLatestVersion w "dotenv"] else []).

Definition devDependenciesPromise (w : World) : list (result Descriptor) :=
  [getLatestVersion w "nodemon"].

(** The [try] block of [createApp].  The import and middleware lines
    are pushed between the writes; being local arrays they are the
    functions [importLines] and [middlewareLines] of the answers.  All
    lookups are started before the first [await]; the model sees each
    batch settle where the code awaits it.  (A nodemon lookup that
    rejects while the first batch is still awaited, or after that batch
    has rejected, has no handler attached yet: what Node does with such
    a rejection is not modelled.) *)
Definition createApp_try (w : World) : M FS unit :=
  console_log
    (LogText (Plain "Create an Express.js project from this CLI TOOL! 🚀"));;
  answer ← await (prompt w questions);
  let projectName := name answer in
  let projectDir := "./" +:+ projectName in
  let fileExtension := "js" in
  present ← fs_existsSync projectDir;
  when (negb present) (
    fs_mkdirSync projectDir;;
    fs_mkdirSync (projectDir +:+ "/routes");;
    fs_mkdirSync (projectDir +:+ "/controllers");;
    fs_mkdirSync (projectDir +:+ "/utils");;
    fs_mkdirSync (projectDir +:+ "/middlewares");;
    fs_mkdirSync (projectDir +:+ "/lib");;
    fs_mkdirSync (projectDir +:+ "/tests")
  );;
  when (useErrorHandler answer) (
    fs_writeFileSync (projectDir +:+ "/middlewares/error.js") jsErrorMiddleware;;
    fs_writeFileSync (projectDir +:+ "/utils/errorHandler.js") jsErrorHandler
  );;
  when (useEnvFile answer) (
    fs_writeFileSync (projectDir +:+ "/.env") envFileContent
  );;
  fs_writeFileSync (projectDir +:+ "/app." +:+ fileExtension)
    (baseFileContent answer);;
  dependeciesRaw ←
    await (Promise_all (firstToReject w) (dependenciesPromise w answer));
  devDependenciesRaw ←
    await (Promise_all (firstToReject w) (devDependenciesPromise w));
  let dependecies := map dependencyEntry dependeciesRaw in
  let devDependecies := map dependencyEntry devDependenciesRaw in
  fs_writeFileSync (projectDir +:+ "/package.json")
    (packageJsonContent projectName dependecies devDependecies);;
  console_log (LogText (Plain nl));;
  console_log
    (LogText
       (Chalk bgWhite
          (Chalk black
             (Plain ("🎉 Project '" +:+ projectName
                     +:+ "' created successfully! 🎉")))));;
  console_log (LogText (Plain nl));;
  console_log (LogText (Chalk yellow (Chalk italic (Plain "Next Steps:"))));;
  console_log (LogText (Chalk bold (Plain ("-> cd " +:+ projectName))));;
  console_log (LogText (Chalk bold (Plain ("-> npm install " +:+ nl))));;
  console_log
    (LogText (Chalk greenBright (Chalk italic (Plain "Start your server: "))));;
  console_log (LogText (Chalk bold (Plain ("1-> npm run dev 🚀" +:+ nl)))).

(** [createApp]: the [try] block under its [catch (error)]. *)
Definition createApp (w : World) : M FS unit :=
  try_catch (createApp_try w) (fun error => console_log (LogError error)).

(** The last statement of the file: [createApp().catch(...)]. *)
Definition main (w : World) : M FS unit :=
  try_catch (createApp w) (fun err => console_log (LogError err)).

(** One run of the program from a file system [fs0]. *)
Definition run (w : World) (fs0 : FS) : result unit * State FS :=
  main w {| fs := fs0; journal := [] |}.

End Generator.

(** The exit code Node gives the process: index.js never calls
    [process.exit] and never assigns [process.exitCode], so the code is
    0 unless the promise at the end of the file is left rejected. *)
Definition exitCode (r : result unit) : Z :=
  match r with
  | Ok _ => 0
  | Throw _ => 1
  end.

(** ** A file system to run the generator on

    An in-memory tree keyed by the path as written, with the failures
    of the real calls that depend on the tree alone: [mkdir] on a path
    that exists or under a directory that does not, [open] of a
    directory or under a directory that does not exist.  Paths are
    relative and compared as text. *)

Inductive node :=
| Dir
| File (content : string).

Module MemFs.

(** The text before the last slash of [path]. *)
Fixpoint dirname (path : string) : string :=
  match path with
  | EmptyString => EmptyString
  | String c rest =>
      if occurs "/" rest then String c (dirname rest) else EmptyString
  end.

Definition parent (path : string) : string :=
  match dirname path with
  | EmptyString => "."
  | d => d
  end.

Definition mem_existsSync (path : string) (t : gmap string node) : bool :=
  match t !! path with
  | Some _ => true
  | None => false
  end.

Definition mem_mkdirSync (path : string) (t : gmap string node)
    : result (gmap string node) :=
  match t !! path with
  | Some _ => Throw (FsError "mkdir" "EEXIST" path)
  | None =>
      match t !! parent path with
      | Some Dir => Ok (<[path := Dir]> t)
      | Some (File _) => Throw (FsError "mkdir" "ENOTDIR" path)
      | None => Throw (FsError "mkdir" "ENOENT" path)
      end
  end.

Definition mem_writeFileSync (path content : string) (t : gmap string node)
    : result (gmap string node) :=
  match t !! path with
  | Some Dir => Throw (FsError "open" "EISDIR" path)
  | _ =>
      match t !! parent path with
      | Some Dir => Ok (<[path := File content]> t)
      | Some (File _) => Throw (FsError "open" "ENOTDIR" path)
      | None => Throw (FsError "open" "ENOENT" path)
      end
  end.

#[global] Instance mem_fs : FileSystem (gmap string node) := {|
  existsSync := mem_existsSync;
  mkdirSync := mem_mkdirSync;
  writeFileSync := mem_writeFileSync
|}.

(** The working directory, empty. *)
Definition empty_cwd : gmap string node := {[ "." := Dir ]}.

End MemFs.

(** ** The generated error middleware

    [jsErrorMiddleware] is a program of its own, run later inside the
    generated project.  This is its body as a function: the error
    object's two fields it reads and overwrites, the imported
    [envMode], and what it hands to [res.status(...).json(...)]. *)

Module ErrorMiddleware.

(** The values a field of the error object may hold. *)
Inductive value :=
| Undefined
| Null
| Bool (b : bool)
| Num (n : Z)
| NaN
| Str (s : string)
| Obj (ref : nat).

(** ToBoolean. *)
Definition truthy (v : value) : bool :=
  match v with
  | Undefined | Null | NaN => false
  | Bool b => b
  | Num n => negb (Z.eqb n 0)
  | Str s => negb (String.eqb s "")
  | Obj _ => true
  end.

(** [a || b]. *)
Definition or (a b : value) : value := if truthy a then a else b.

(** The error object [err], by the two fields the middleware uses. *)
Record Err := {
  err_message : value;
  err_statusCode : value
}.

(** The [response] object literal; [res_error] is the optional
    [response.error], holding [err] as it is after the two defaults. *)
Record Response := {
  res_success : bool;
  res_message : value;
  res_error : option Err
}.

(** [res.status(code).json(body)]. *)
Record Reply := {
  status : value;
  json : Response
}.

Definition errorMiddleware (envMode : string) (err : Err) : Reply :=
  let err :=
    {| err_message := or (err_message err) (Str "Internal Server Error");
       err_statusCode := err_statusCode err |} in
  let err :=
    {| err_message := err_message err;
       err_statusCode := or (err_statusCode err) (Num 500) |} in
  let response :=
    {| res_success := false; res_message := err_message err;
       res_error := None |} in
  let response :=
    if String.eqb envMode "DEVELOPMENT"
    then {| res_success := res_success response;
            res_message := res_message response;
            res_error := Some err |}
    else response in
  {| status := err_statusCode err; json := response |}.

(** The mode the generated [npm start] script selects. *)
Definition production : string := "PRODUCTION".

End ErrorMiddleware.

(** ** JSON texts (RFC 8259), over the characters of a string *)

Module Json.

Definition code (c : ascii) : nat := nat_of_ascii c.

Definition is_ws (c : ascii) : bool :=
  Nat.eqb (code c) 32 || Nat.eqb (code c) 9
  || Nat.eqb (code c) 10 || Nat.eqb (code c) 13.

Definition is_digit (c : ascii) : bool :=
  Nat.leb 48 (code c) && Nat.leb (code c) 57.

Definition is_hex (c : ascii) : bool :=
  is_digit c
  || (Nat.leb 65 (code c) && Nat.leb (code c) 70)
  || (Nat.leb 97 (code c) && Nat.leb (code c) 102).

(** A character that may stand unescaped inside a string. *)
Definition is_unescaped (c : ascii) : bool :=
  Nat.leb 32 (code c) && negb (Nat.eqb (code c) 34)
  && negb (Nat.eqb (code c) 92).

(** A character that may follow a backslash (other than [u]). *)
Definition is_escape (c : ascii) : bool :=
  existsb (Nat.eqb (code c)) [34; 92; 47; 98; 102; 110; 114; 116].

Definition ws (l : list ascii) : Prop := Forall (fun c => is_ws c = true) l.

Definition digits (l : list ascii) : Prop :=
  l <> [] /\ Forall (fun c => is_digit c = true) l.

Inductive json_int : list ascii -> Prop :=
| int_zero : json_int ["0"%char]
| int_digits d ds :
    is_digit d = true -> d <> "0"%char ->
    Forall (fun c => is_digit c = true) ds ->
    json_int (d :: ds).

Inductive json_frac : list ascii -> Prop :=
| frac_none : json_frac []
| frac_some ds : digits ds -> json_frac ("."%char :: ds).

Inductive json_sign : list ascii -> Prop :=
| sign_none : json_sign []
| sign_plus : json_sign ["+"%char]
| sign_minus : json_sign ["-"%char].

Inductive json_exp : list ascii -> Prop :=
| exp_none : json_exp []
| exp_some e sg ds :
    e = "e"%char \/ e = "E"%char -> json_sign sg -> digits ds ->
    json_exp (e :: sg ++ ds).

Inductive json_minus : list ascii -> Prop :=
| minus_none : json_minus []
| minus_some : json_minus ["-"%char].

Inductive json_number : list ascii -> Prop :=
| number_intro m i f e :
    json_minus m -> json_int i -> json_frac f -> json_exp e ->
    json_number (m ++ i ++ f ++ e).

Inductive json_chars : list ascii -> Prop :=
| chars_nil : json_chars []
| chars_plain c l :
    is_unescaped c = true -> json_chars l -> json_chars (c :: l)
| chars_escape c l :
    is_escape c = true -> json_chars l ->
    json_chars ("\"%char :: c :: l)
| chars_unicode h1 h2 h3 h4 l :
    is_hex h1 = true -> is_hex h2 = true ->
    is_hex h3 = true -> is_hex h4 = true -> json_chars l ->
    json_chars ("\"%char :: "u"%char :: h1 :: h2 :: h3 :: h4 :: l).

Definition quote : ascii := ascii_of_nat 34.

Inductive json_string : list ascii -> Prop :=
| string_intro cs : json_chars cs -> json_string (quote :: cs ++ [quote]).

Inductive json_value : list ascii -> Prop :=
| value_null : json_value (list_ascii_of_string "null")
| value_true : json_value (list_ascii_of_string "true")
| value_false : json_value (list_ascii_of_string "false")
| value_number l : json_number l -> json_value l
| value_string l : json_string l -> json_value l
| value_array_empty w : ws w -> json_value ("["%char :: w ++ ["]"%char])
| value_array es :
    json_elements es -> json_value ("["%char :: es ++ ["]"%char])
| value_object_empty w : ws w -> json_value ("{"%char :: w ++ ["}"%char])
| value_object ms :
    json_members ms -> json_value ("{"%char :: ms ++ ["}"%char])
with json_element : list ascii -> Prop :=
| element_intro w1 v w2 :
    ws w1 -> json_value v -> ws w2 -> json_element (w1 ++ v ++ w2)
with json_elements : list ascii -> Prop :=
| elements_one e : json_element e -> json_elements e
| elements_more e es :
    json_element e -> json_elements es ->
    json_elements (e ++ ","%char :: es)
with json_member : list ascii -> Prop :=
| member_intro w1 k w2 e :
    ws w1 -> json_string k -> ws w2 -> json_element e ->
    json_member (w1 ++ k ++ w2 ++ ":"%char :: e)
with json_members : list ascii -> Prop :=
| members_one m : json_member m -> json_members m
| members_more m ms :
    json_member m -> json_members ms ->
    json_members (m ++ ","%char :: ms).

(** A JSON text is one element: a value with white space around it. *)
Definition valid (text : string) : Prop :=
  json_element (list_ascii_of_string text).

(** The last character of [l] that is not white space. *)
Fixpoint last_token (l : list ascii) : option ascii :=
  match l with
  | [] => None
  | c :: rest =>
      match last_token rest with
      | Some d => Some d
      | None => if is_ws c then None else Some c
      end
  end.

End Json.

(** ** Vocabulary for statements about runs *)

(** [projectDir] as [createApp] computes it from the answers. *)
Definition projectDirOf (answer : Answer) : string := "./" +:+ name answer.

(** The seven directories of the [mkdirSync] block, in order. *)
Definition projectDirs (d : string) : list string :=
  [d; d +:+ "/routes"; d +:+ "/controllers"; d +:+ "/utils";
   d +:+ "/middlewares"; d +:+ "/lib"; d +:+ "/tests"].

(** [may_perform w a present ev]: [ev] is one of the calls [createApp]
    can make once the prompt has answered [a] and [existsSync] has
    returned [present], with the arguments it makes it with. *)
Inductive may_perform (w : World) (a : Answer) (present : bool)
    : event -> Prop :=
| mp_log x : may_perform w a present (EvLog x)
| mp_mkdir p o :
    present = false -> In p (projectDirs (projectDirOf a)) ->
    may_perform w a present (EvMkdir p o)
| mp_error_js o :
    useErrorHandler a = true ->
    may_perform w a present
      (EvWrite (projectDirOf a +:+ "/middlewares/error.js")
         jsErrorMiddleware o)
| mp_errorHandler_js o :
    useErrorHandler a = true ->
    may_perform w a present
      (EvWrite (projectDirOf a +:+ "/utils/errorHandler.js")
         jsErrorHandler o)
| mp_env o :
    useEnvFile a = true ->
    may_perform w a present
      (EvWrite (projectDirOf a +:+ "/.env") envFileContent o)
| mp_app_js o :
    may_perform w a present
      (EvWrite (projectDirOf a +:+ "/app.js") (baseFileContent a) o)
| mp_package_json ds dds o :
    Promise_all (firstToReject w) (dependenciesPromise w a) = Ok ds ->
    Promise_all (firstToReject w) (devDependenciesPromise w) = Ok dds ->
    may_perform w a present
      (EvWrite (projectDirOf a +:+ "/package.json")
         (packageJsonContent (name a) (map dependencyEntry ds)
            (map dependencyEntry dds)) o).

(** The journal of a run of the [try] block that reaches its end. *)
Definition successJournal (a : Answer) (present : bool)
    (ds dds : list Descriptor) : list event :=
  let d := projectDirOf a in
  [EvLog (LogText
            (Plain "Create an Express.js project from this CLI TOOL! 🚀"))]
  ++ (if present then [] else map (fun p => EvMkdir p None) (projectDirs d))
  ++ (if useErrorHandler a
      then [EvWrite (d +:+ "/middlewares/error.js") jsErrorMiddleware None;
            EvWrite (d +:+ "/utils/errorHandler.js") jsErrorHandler None]
      else [])
  ++ (if useEnvFile a
      then [EvWrite (d +:+ "/.env") envFileContent None]
      else [])
  ++ [EvWrite (d +:+ "/app.js") (baseFileContent a) None;
      EvWrite (d +:+ "/package.json")
        (packageJsonContent (name a) (map dependencyEntry ds)
           (map dependencyEntry dds)) None]
  ++ map EvLog [
       LogText (Plain nl);
       LogText
         (Chalk bgWhite
            (Chalk black
               (Plain ("🎉 Project '" +:+ name a
                       +:+ "' created successfully! 🎉"))));
       LogText (Plain nl);
       LogText (Chalk yellow (Chalk italic (Plain "Next Steps:")));
       LogText (Chalk bold (Plain ("-> cd " +:+ name a)));
       LogText (Chalk bold (Plain ("-> npm install " +:+ nl)));
       LogText
         (Chalk greenBright (Chalk italic (Plain "Start your server: ")));
       LogText (Chalk bold (Plain ("1-> npm run dev 🚀" +:+ nl)))
     ].

(** The error an [fs] call threw, when it threw. *)
Definition failure (ev : event) : option error :=
  match ev with
  | EvMkdir _ o => o
  | EvWrite _ _ o => o
  | EvLog _ => None
  end.

Section Judgements.

Context {FS : Type} `{FileSystem FS}.

(** [emits P m]: whatever [m] does, every event it adds satisfies [P]. *)
Definition emits {A} (P : event -> Prop) (m : M FS A) : Prop :=
  forall s, exists evs,
    journal (m s).2 = journal s ++ evs /\ Forall P evs.

(** [on_ok m evs]: when [m] returns, it has added exactly [evs]. *)
Definition on_ok {A} (m : M FS A) (evs : list event) : Prop :=
  forall s a s', m s = (Ok a, s') -> journal s' = journal s ++ evs.

(** [strict m]: an [fs] call that fails inside [m] makes [m] throw the
    error of that call. *)
Definition strict {A} (m : M FS A) : Prop :=
  forall s, exists evs,
    journal (m s).2 = journal s ++ evs /\
    forall ev e, In ev evs -> failure ev = Some e -> (m s).1 = Throw e.

(** [throws_after ev e m]: whenever [m] gets as far as [ev], it goes
    on to throw [e]. *)
Definition throws_after {A} (ev : event) (e : error) (m : M FS A) : Prop :=
  forall s, exists evs,
    journal (m s).2 = journal s ++ evs /\
    (In ev evs -> (m s).1 = Throw e).

(** The state a run starts from. *)
Definition initial (fs0 : FS) : State FS := {| fs := fs0; journal := [] |}.

(** [step_fails w fs0 e]: in the run of [w] from [fs0] a step fails
    with [e]: the prompt rejects with it, or an [fs] call of the run
    throws it, or the run gets past the write of app.js and the
    dependencies batch rejects with it. *)
Inductive step_fails (w : World) (fs0 : FS) (e : error) : Prop :=
| prompt_fails :
    prompt w questions = Throw e -> step_fails w fs0 e
| fs_call_fails ev :
    In ev (journal (run w fs0).2) -> failure ev = Some e ->
    step_fails w fs0 e
| dependencies_lookup_fails a :
    prompt w questions = Ok a ->
    In (EvWrite (projectDirOf a +:+ "/app.js") (baseFileContent a) None)
      (journal (run w fs0).2) ->
    Promise_all (firstToReject w) (dependenciesPromise w a) = Throw e ->
    step_fails w fs0 e.

End Judgements.

(** ** Concrete runs *)

Module Examples.

Definition demo : Answer :=
  {| name := "demo"; useCors := true; useErrorHandler := true;
     useEnvFile := true |}.

Definition plain : Answer :=
  {| name := "api"; useCors := false; useErrorHandler := false;
     useEnvFile := false |}.

(** A registry that knows the four packages at fixed versions. *)
Definition registry (package : string) : result Descriptor :=
  if String.eqb package "express"
  then Ok {| dep_name := "express"; dep_version := "4.18.0" |}
  else if String.eqb package "cors"
  then Ok {| dep_name := "cors"; dep_version := "2.8.5" |}
  else if String.eqb package "dotenv"
  then Ok {| dep_name := "dotenv"; dep_version := "16.0.0" |}
  else if String.eqb package "nodemon"
  then Ok {| dep_name := "nodemon"; dep_version := "3.0.0" |}
  else Throw (LookupError package "Not Found").

(** The same registry with the cors lookup failing. *)
Definition registry_cors_down (package : string) : result Descriptor :=
  if String.eqb package "cors"
  then Throw (LookupError "cors" "getaddrinfo ENOTFOUND registry.npmjs.org")
  else registry package.

Definition demoWorld : World :=
  {| prompt := fun _ => Ok demo; getLatestVersion := registry;
     firstToReject := 0 |}.

Definition demoWorld' : World :=
  {| prompt := fun _ => Ok demo; getLatestVersion := registry;
     firstToReject := 7 |}.

Definition plainWorld : World :=
  {| prompt := fun _ => Ok plain; getLatestVersion := registry;
     firstToReject := 0 |}.

Definition corsDownWorld : World :=
  {| prompt := fun _ => Ok demo; getLatestVersion := registry_cors_down;
     firstToReject := 0 |}.

(** The user closes the prompt. *)
Definition closed : error := PromptError "User force closed the prompt".

Definition abortedWorld : World :=
  {| prompt := fun _ => Throw closed; getLatestVersion := registry;
     firstToReject := 0 |}.

(** A project root left over from an earlier run, its middlewares
    directory removed since. *)
Definition leftover : gmap string node :=
  {[ "." := Dir; "./demo" := Dir; "./demo/utils" := Dir ]}.

(** A project root with the two directories the error files go to,
    left by an earlier run. *)
Definition prepared : gmap string node :=
  {[ "." := Dir; "./demo" := Dir; "./demo/middlewares" := Dir;
     "./demo/utils" := Dir ]}.

(** The manifest of the demo run, as it should read. *)
Definition demoManifest : string := lines [
  "{";
  sp 8 +:+ q "name" +:+ ": " +:+ q "demo" +:+ ",";
  sp 8 +:+ q "version" +:+ ": " +:+ q "1.0.0" +:+ ",";
  sp 8 +:+ q "description" +:+ ": " +:+ q "" +:+ ",";
  sp 8 +:+ q "main" +:+ ": " +:+ q "app.js" +:+ ",";
  sp 8 +:+ q "scripts" +:+ ": {" +:+ q "start" +:+ ":"
    +:+ q "set NODE_ENV=PRODUCTION & node app.js" +:+ ","
    +:+ q "dev" +:+ ":" +:+ q "npx nodemon app.js" +:+ "},";
  sp 8 +:+ q "keywords" +:+ ": [],";
  sp 8 +:+ q "author" +:+ ": " +:+ q "" +:+ ",";
  sp 8 +:+ q "type" +:+ ": " +:+ q "module" +:+ ",";
  sp 8 +:+ q "license" +:+ ": " +:+ q "ISC" +:+ ",";
  sp 8 +:+ q "dependencies" +:+ ": {";
  sp 12 +:+ q "express" +:+ ": " +:+ q "4.18.0" +:+ ","
    +:+ q "cors" +:+ ": " +:+ q "2.8.5" +:+ ","
    +:+ q "dotenv" +:+ ": " +:+ q "16.0.0";
  sp 8 +:+ "},";
  sp 8 +:+ q "devDependencies" +:+ ": {";
  sp 12 +:+ q "nodemon" +:+ ": " +:+ q "3.0.0";
  sp 8 +:+ "},";
  sp 4 +:+ "}"
].

End Examples.

(** ** Vocabulary for statements about the order of calls *)

(** [writes_to path ev]: [ev] is a [writeFileSync] call on [path],
    whatever it wrote and however it ended. *)
Definition writes_to (path : string) (ev : event) : Prop :=
  exists c o, ev = EvWrite path c o.

Section OrderJudgements.

Context {FS : Type} `{FileSystem FS}.

(** [blames E m]: an error [m] throws is the error of an [fs] call
    [m] made, or one that [E] accounts for. *)
Definition blames {A} (E : error -> Prop) (m : M FS A) : Prop :=
  forall s, exists evs,
    journal (m s).2 = journal s ++ evs /\
    forall e, (m s).1 = Throw e ->
      E e \/ exists ev, In ev evs /\ failure ev = Some e.

(** [checkpoint P Q m]: [m] gets as far as the event [P]; or else an
    [fs] call of [m] failed, and [m] made no call that [Q] describes. *)
Definition checkpoint {A} (P : event) (Q : event -> Prop) (m : M FS A)
    : Prop :=
  forall s, exists evs,
    journal (m s).2 = journal s ++ evs /\
    (In P evs \/
     ((exists ev e, In ev evs /\ failure ev = Some e) /\
      Forall (fun ev => ~ Q ev) evs)).

End OrderJudgements.

(** ** Vocabulary for further statements about runs *)

(** [cut needle hay]: the text before and the text after the first
    occurrence of [needle] in [hay] ([String.prototype.split] at the
    first match). *)
Fixpoint cut (needle hay : string) : option (string * string) :=
  if String.prefix needle hay
  then Some (EmptyString,
             String.substring (String.length needle)
               (String.length hay - String.length needle) hay)
  else
    match hay with
    | EmptyString => None
    | String c rest =>
        match cut needle rest with
        | Some (before, after) => Some (String c before, after)
        | None => None
        end
    end.

Definition before (needle hay : string) : string :=
  match cut needle hay with
  | Some (b, _) => b
  | None => hay
  end.

Definition after (needle hay : string) : string :=
  match cut needle hay with
  | Some (_, a) => a
  | None => EmptyString
  end.


Definition is_fs_call (ev : event) : bool :=
  match ev with
  | EvLog _ => false
  | _ => true
  end.

(** The package names a run passes to [getLatestVersion]. *)
Definition requested (answer : Answer) : list string :=
  ["express"]
  ++ (if useCors answer then ["cors"] else [])
  ++ (if useEnvFile answer then ["dotenv"] else [])
  ++ ["nodemon"].

(** The line of the summary that reports success. *)
Definition successLine (projectName : string) : logged :=
  LogText
    (Chalk bgWhite
       (Chalk black
          (Plain ("🎉 Project '" +:+ projectName
                  +:+ "' created successfully! 🎉")))).

(** The names of the files and directories of the fixed layout,
    relative to the project root. *)
Definition layoutDirs : list string :=
  [""; "/routes"; "/controllers"; "/utils"; "/middlewares"; "/lib"; "/tests"].

Definition layoutFiles : list string :=
  ["/middlewares/error.js"; "/utils/errorHandler.js"; "/.env"; "/app.js";
   "/package.json"].

Section MoreJudgements.

Context {FS : Type} `{FileSystem FS}.

(** [orderly m]: the [fs] calls [m] makes all return, except that the
    last one may throw, and then [m] throws what it threw. *)
Definition orderly {A} (m : M FS A) : Prop :=
  forall s, exists evs,
    journal (m s).2 = journal s ++ evs /\
    match (m s).1 with
    | Ok _ => Forall (fun ev => failure ev = None) evs
    | Throw e =>
        Forall (fun ev => failure ev = None) evs \/
        exists pre last,
          evs = pre ++ [last] /\ Forall (fun ev => failure ev = None) pre /\
          failure last = Some e
    end.

(** [never_throws m]: [m] always returns. *)
Definition never_throws {A} (m : M FS A) : Prop :=
  forall s, exists a, (m s).1 = Ok a.

(** [on_throw P m]: when [m] throws, every event it has added
    satisfies [P]. *)
Definition on_throw {A} (P : event -> Prop) (m : M FS A) : Prop :=
  forall s e, (m s).1 = Throw e ->
    exists evs, journal (m s).2 = journal s ++ evs /\ Forall P evs.

End MoreJudgements.

(** ** The generated error class

    [jsErrorHandler] is the other program the generator writes out:
    a subclass of [Error] whose constructor takes a status code and an
    optional message.  The message argument is taken here to be absent
    or a string, which is what an [Error] is given; the default
    parameter applies to an absent one only. *)

Module ErrorHandlerClass.
Import ErrorMiddleware.

(** [new ErrorHandler(statusCode, message)]. *)
Definition ErrorHandler (statusCode : value) (message : option string) : Err :=
  let message :=
    match message with
    | None => "something went wrong"
    | Some m => m
    end in
  {| err_message := Str message; err_statusCode := statusCode |}.

End ErrorHandlerClass.

(** * Properties *)

(** ** Text *)

Lemma append_inj_l p a b : p +:+ a = p +:+ b -> a = b.
Proof.
  induction p as [|c p IH]; simpl; intros E; [exact E|].
  injection E as E. auto.
Qed.

Lemma append_assoc (a b c : string) : (a +:+ b) +:+ c = a +:+ b +:+ c.
Proof.
  induction a as [|x a IH]; [reflexivity|].
  change (String x ((a +:+ b) +:+ c) = String x (a +:+ b +:+ c)).
  now f_equal.
Qed.

Lemma prefix_append n post : String.prefix n (n +:+ post) = true.
Proof.
  induction n as [|c n IH]; simpl; [now destruct post|].
  destruct (Ascii.ascii_dec c c) as [_|N]; [exact IH | now destruct N].
Qed.

Lemma prefix_true n h :
  String.prefix n h = true -> exists post, h = n +:+ post.
Proof.
  revert h. induction n as [|c n IH]; intros h.
  - intros _. now exists h.
  - destruct h as [|d h]; simpl; [discriminate|].
    destruct (Ascii.ascii_dec c d) as [->|_]; [|discriminate].
    intros P. destruct (IH _ P) as [post ->]. now exists post.
Qed.

Lemma occurs_prefix n h : String.prefix n h = true -> occurs n h = true.
Proof. intros P. destruct h; unfold occurs; now rewrite P. Qed.

Lemma occurs_append n pre post : occurs n (pre +:+ n +:+ post) = true.
Proof.
  induction pre as [|c pre IH].
  - change (occurs n (n +:+ post) = true).
    apply occurs_prefix. exact (prefix_append n post).
  - simpl. rewrite IH. apply orb_true_r.
Qed.

Lemma occurs_true n h :
  occurs n h = true -> exists pre post, h = pre +:+ n +:+ post.
Proof.
  induction h as [|c h IH]; intros O.
  - change (String.prefix n "" || false = true) in O.
    apply orb_true_iff in O as [P|P]; [|discriminate].
    destruct (prefix_true _ _ P) as [post E]. now exists "", post.
  - change (String.prefix n (String c h) || occurs n h = true) in O.
    apply orb_true_iff in O as [P|P].
    + destruct (prefix_true _ _ P) as [post E]. now exists "", post.
    + destruct (IH P) as (pre & post & ->). now exists (String c pre), post.
Qed.

Lemma occurs_false n h :
  occurs n h = false -> forall pre post, h <> pre +:+ n +:+ post.
Proof.
  intros N pre post ->. rewrite occurs_append in N. discriminate.
Qed.

Lemma list_ascii_append a b :
  list_ascii_of_string (a +:+ b)
  = list_ascii_of_string a ++ list_ascii_of_string b.
Proof. induction a as [|c a IH]; simpl; [reflexivity | now f_equal]. Qed.

(** Two paths under one directory are the same only if they are named
    the same. *)
Lemma sibling_paths d x y : x <> y -> d +:+ x <> d +:+ y.
Proof. intros N E. apply N. exact (append_inj_l _ _ _ E). Qed.

(** ** Runs: the events a computation can add *)

Section Runs.

Context {FS : Type} `{FileSystem FS}.

Lemma emits_ret {A} P (a : A) : emits (FS := FS) P (ret a).
Proof. intros s. exists []. simpl. now rewrite app_nil_r. Qed.

Lemma emits_await {A} P (p : result A) : emits (FS := FS) P (await p).
Proof. intros s. exists []. simpl. now rewrite app_nil_r. Qed.

Lemma emits_existsSync P p : emits P (fs_existsSync p).
Proof. intros s. exists []. simpl. now rewrite app_nil_r. Qed.

Lemma emits_log P x : P (EvLog x) -> emits (FS := FS) P (console_log x).
Proof. intros Hp s. exists [EvLog x]. simpl. auto. Qed.

Lemma emits_mkdirSync P p :
  (forall o, P (EvMkdir p o)) -> emits P (fs_mkdirSync p).
Proof.
  intros Hp s. unfold fs_mkdirSync.
  destruct (mkdirSync p (fs s)); simpl; eexists; split; eauto.
Qed.

Lemma emits_writeFileSync P p c :
  (forall o, P (EvWrite p c o)) -> emits P (fs_writeFileSync p c).
Proof.
  intros Hp s. unfold fs_writeFileSync.
  destruct (writeFileSync p c (fs s)); simpl; eexists; split; eauto.
Qed.

Lemma emits_bind {A B} P (m : M FS A) (k : A -> M FS B) :
  emits P m ->
  (forall a, (exists s, (m s).1 = Ok a) -> emits P (k a)) ->
  emits P (m ≫= k).
Proof.
  intros Hm Hk s. unfold mbind, M_bind, bind. cbv beta.
  destruct (Hm s) as (e1 & E1 & F1).
  destruct (m s) as [[a|e] s1] eqn:Em; simpl in *.
  - assert (Hr : exists s0, (m s0).1 = Ok a)
      by (exists s; now rewrite Em).
    destruct (Hk a Hr s1) as (e2 & E2 & F2).
    exists (e1 ++ e2). rewrite E2, E1, app_assoc. split; [reflexivity|].
    apply Forall_app; auto.
  - exists e1; auto.
Qed.

Lemma emits_when P c (m : M FS unit) :
  (c = true -> emits P m) -> emits P (when c m).
Proof. destruct c; simpl; auto using emits_ret. Qed.

Lemma on_ok_ret {A} (a : A) : on_ok (FS := FS) (ret a) [].
Proof. intros s b s' E. injection E as <- <-. now rewrite app_nil_r. Qed.

Lemma on_ok_await {A} (p : result A) : on_ok (FS := FS) (await p) [].
Proof. intros s b s' E. injection E as _ <-. now rewrite app_nil_r. Qed.

Lemma on_ok_existsSync p : on_ok (fs_existsSync p) [].
Proof. intros s b s' E. injection E as _ <-. now rewrite app_nil_r. Qed.

Lemma on_ok_log x : on_ok (FS := FS) (console_log x) [EvLog x].
Proof. intros s b s' E. injection E as _ <-. reflexivity. Qed.

Lemma on_ok_mkdirSync p : on_ok (fs_mkdirSync p) [EvMkdir p None].
Proof.
  intros s b s'. unfold fs_mkdirSync.
  destruct (mkdirSync p (fs s)); intros E; [|discriminate].
  injection E as _ <-. reflexivity.
Qed.

Lemma on_ok_writeFileSync p c :
  on_ok (fs_writeFileSync p c) [EvWrite p c None].
Proof.
  intros s b s'. unfold fs_writeFileSync.
  destruct (writeFileSync p c (fs s)); intros E; [|discriminate].
  injection E as _ <-. reflexivity.
Qed.

Lemma on_ok_bind {A B} (m : M FS A) (k : A -> M FS B) e1 e2 :
  on_ok m e1 ->
  (forall a, (exists s, (m s).1 = Ok a) -> on_ok (k a) e2) ->
  on_ok (m ≫= k) (e1 ++ e2).
Proof.
  intros Hm Hk s b s'. unfold mbind, M_bind, bind. cbv beta.
  destruct (m s) as [[a|e] s1] eqn:Em; [|discriminate].
  intros Ek. rewrite (Hk a (ex_intro _ s (f_equal fst Em)) _ _ _ Ek).
  rewrite (Hm _ _ _ Em). now rewrite app_assoc.
Qed.

Lemma on_ok_when c (m : M FS unit) e :
  on_ok m e -> on_ok (when c m) (if c then e else []).
Proof. destruct c; simpl; auto using on_ok_ret. Qed.

End Runs.

(** ** Runs: what [createApp] does *)

Section CreateApp.

Context {FS : Type} `{FileSystem FS}.

Lemma bind_log {B} x (k : unit -> M FS B) s :
  (console_log x ≫= k) s
  = k tt {| fs := fs s; journal := journal s ++ [EvLog x] |}.
Proof. reflexivity. Qed.

Lemma bind_await {A B} (p : result A) (k : A -> M FS B) s :
  (await p ≫= k) s
  = match p with Ok a => k a s | Throw e => (Throw e, s) end.
Proof. unfold mbind, M_bind, bind, await. now destruct p. Qed.

Lemma bind_existsSync {B} p (k : bool -> M FS B) s :
  (fs_existsSync p ≫= k) s = k (existsSync p (fs s)) s.
Proof. reflexivity. Qed.

Ltac emits_steps :=
  repeat first
    [ apply emits_bind; [| intros ? [? ?]]
    | apply emits_log | apply emits_await | apply emits_existsSync
    | apply emits_when; intros ?
    | apply emits_mkdirSync; intros ?
    | apply emits_writeFileSync; intros ? ].

(** When the prompt is closed, the [try] block throws right after its
    banner. *)
Lemma createApp_try_aborted w e s :
  prompt w questions = Throw e ->
  createApp_try w s
  = (Throw e,
     {| fs := fs s;
        journal := journal s ++
          [EvLog (LogText
             (Plain "Create an Express.js project from this CLI TOOL! 🚀"))]
     |}).
Proof.
  intros Hp. unfold createApp_try. now rewrite bind_log, bind_await, Hp.
Qed.

(** Every call of the [try] block is one [may_perform] lists. *)
Lemma createApp_try_events w a s :
  prompt w questions = Ok a ->
  exists evs,
    journal (createApp_try w s).2 = journal s ++ evs /\
    Forall (may_perform w a (existsSync (projectDirOf a) (fs s))) evs.
Proof.
  intros Hp. unfold createApp_try.
  rewrite bind_log, bind_await, Hp, bind_existsSync. cbv zeta. simpl fs.
  match goal with |- context [journal (?m ?s1).2] =>
    assert (E : emits
                  (may_perform w a (existsSync (projectDirOf a) (fs s))) m)
  end.
  { emits_steps.
    all: try (constructor; fail).
    all: try (apply mp_mkdir;
              [ unfold projectDirOf;
                destruct (existsSync _ (fs s)); [discriminate | reflexivity]
              | unfold projectDirs, projectDirOf; simpl; tauto ]).
    all: constructor; assumption. }
  match goal with |- context [journal (?m ?s1).2] =>
    destruct (E s1) as (evs & E1 & F1)
  end.
  rewrite E1. simpl journal. rewrite <- app_assoc.
  eexists. split; [reflexivity|].
  constructor; [constructor | exact F1].
Qed.

(** [createApp] never throws: its [catch] takes everything. *)
Lemma createApp_returns w s : (createApp w s).1 = Ok tt.
Proof.
  unfold createApp, try_catch.
  destruct (createApp_try w s) as [[[]|e] s1]; reflexivity.
Qed.

(** So the [.catch] at the end of the file has nothing to handle. *)
Lemma main_createApp w s : main w s = createApp w s.
Proof.
  unfold main, try_catch. pose proof (createApp_returns w s) as R.
  destruct (createApp w s) as [[[]|e] s1]; [reflexivity | discriminate].
Qed.

(** What the [catch] adds to the journal of the [try] block. *)
Lemma createApp_journal w s :
  journal (createApp w s).2
  = journal (createApp_try w s).2 ++
    match (createApp_try w s).1 with
    | Ok _ => []
    | Throw e => [EvLog (LogError e)]
    end.
Proof.
  unfold createApp, try_catch.
  destruct (createApp_try w s) as [[[]|e] s1]; simpl;
    [now rewrite app_nil_r | reflexivity].
Qed.

(** The events of a whole run whose prompt was answered. *)
Lemma run_events w a fs0 :
  prompt w questions = Ok a ->
  Forall (may_perform w a (existsSync (projectDirOf a) fs0))
    (journal (run w fs0).2).
Proof.
  intros Hp. unfold run. rewrite main_createApp, createApp_journal.
  destruct (createApp_try_events w a {| fs := fs0; journal := [] |} Hp)
    as (evs & E & F).
  rewrite E. simpl. apply Forall_app. split; [exact F|].
  destruct (createApp_try w _).1; repeat constructor.
Qed.

(** The events of a whole run whose prompt was closed. *)
Lemma run_aborted w e fs0 :
  prompt w questions = Throw e ->
  journal (run w fs0).2
  = [EvLog (LogText
       (Plain "Create an Express.js project from this CLI TOOL! 🚀"));
     EvLog (LogError e)].
Proof.
  intros Hp. unfold run. rewrite main_createApp, createApp_journal.
  now rewrite (createApp_try_aborted w e _ Hp).
Qed.

(** A [try] block that reaches its end was given answers and both
    batches of versions, and made exactly the calls of
    [successJournal]. *)
Lemma createApp_try_success w s s' :
  createApp_try w s = (Ok tt, s') ->
  exists a ds dds,
    prompt w questions = Ok a /\
    Promise_all (firstToReject w) (dependenciesPromise w a) = Ok ds /\
    Promise_all (firstToReject w) (devDependenciesPromise w) = Ok dds /\
    journal s'
    = journal s
      ++ successJournal a (existsSync (projectDirOf a) (fs s)) ds dds.
Proof.
  unfold createApp_try. rewrite bind_log, bind_await.
  destruct (prompt w questions) as [a|e] eqn:Hp; [|discriminate].
  rewrite bind_existsSync. cbv zeta. simpl fs.
  set (present := existsSync ("./" +:+ name a) (fs s)).
  destruct (Promise_all (firstToReject w) (dependenciesPromise w a))
    as [ds|e1] eqn:Hds.
  2:{ intros E. exfalso. revert E.
      unfold mbind, M_bind, bind, await.
      repeat match goal with
             | |- context [match ?m ?st with _ => _ end] =>
                 destruct (m st) as [[?|?] ?]
             end; discriminate. }
  destruct (Promise_all (firstToReject w) (devDependenciesPromise w))
    as [dds|e2] eqn:Hdds.
  2:{ intros E. exfalso. revert E.
      unfold mbind, M_bind, bind, await.
      repeat match goal with
             | |- context [match ?m ?st with _ => _ end] =>
                 destruct (m st) as [[?|?] ?]
             end; discriminate. }
  intros E. exists a, ds, dds.
  split; [reflexivity|]. split; [exact Hds|]. split; [reflexivity|].
  revert E.
  match goal with |- ?m ?s1 = _ -> _ =>
    assert (O : exists evs, on_ok m evs /\
      [EvLog (LogText
         (Plain "Create an Express.js project from this CLI TOOL! 🚀"))]
      ++ evs = successJournal a present ds dds)
  end.
  { eexists. split.
    - repeat first
        [ apply on_ok_log | apply on_ok_mkdirSync | apply on_ok_writeFileSync
        | apply on_ok_await | apply on_ok_when
        | eapply on_ok_bind;
          [| intros ? [? ?];
             try match goal with
                 | Hr : (await _ _).1 = Ok _ |- _ =>
                     simpl in Hr; injection Hr as <-
                 end ] ].
    - unfold successJournal, projectDirs, projectDirOf.
      destruct present, (useErrorHandler a), (useEnvFile a); reflexivity. }
  destruct O as (evs & O & J).
  intros E. rewrite (O _ _ _ E). simpl journal. rewrite <- app_assoc.
  f_equal. exact J.
Qed.

End CreateApp.

(** ** JSON: a comma cannot come last inside an object *)

Module JsonFacts.
Import Json.

Lemma last_token_app a b :
  last_token (a ++ b)
  = match last_token b with
    | Some d => Some d
    | None => last_token a
    end.
Proof.
  induction a as [|c a IH]; simpl.
  - now destruct (last_token b).
  - rewrite IH. now destruct (last_token b).
Qed.

Lemma last_token_ws w : ws w -> last_token w = None.
Proof.
  induction 1 as [|c w Hc _ IH]; simpl; [reflexivity|].
  now rewrite IH, Hc.
Qed.

Lemma last_token_snoc l c : is_ws c = false -> last_token (l ++ [c]) = Some c.
Proof. intros Hc. rewrite last_token_app. simpl. now rewrite Hc. Qed.

Lemma digit_not_ws d : is_digit d = true -> is_ws d = false.
Proof.
  destruct d as [[] [] [] [] [] [] [] []]; vm_compute; congruence.
Qed.

Lemma digit_not_closer d :
  is_digit d = true -> d <> ","%char /\ d <> "}"%char.
Proof.
  destruct d as [[] [] [] [] [] [] [] []]; vm_compute; intros E;
    (discriminate E || (split; discriminate)).
Qed.

Lemma last_token_digits ds :
  Forall (fun c => is_digit c = true) ds -> ds <> [] ->
  exists d, last_token ds = Some d /\ is_digit d = true.
Proof.
  induction 1 as [|c ds Hc Hds IH]; intros N; [now destruct N|].
  simpl. destruct ds as [|c' ds'].
  - simpl. rewrite (digit_not_ws _ Hc). eauto.
  - destruct IH as (d & -> & Hd); [discriminate | eauto].
Qed.

Lemma json_int_digits i :
  json_int i -> Forall (fun c => is_digit c = true) i /\ i <> [].
Proof.
  destruct 1 as [|d ds Hd _ Hds]; (split; [|discriminate]).
  - repeat constructor.
  - now constructor.
Qed.

(** A number ends in a digit. *)
Lemma json_number_last l :
  json_number l -> exists d, last_token l = Some d /\ is_digit d = true.
Proof.
  destruct 1 as [m i f e Hm Hi Hf He].
  rewrite !last_token_app.
  destruct He as [|x sg ds _ _ [Nds Fds]].
  - simpl. destruct Hf as [|ds [Nds Fds]].
    + simpl. destruct (json_int_digits _ Hi) as [Fi Ni].
      destruct (last_token_digits _ Fi Ni) as (d & -> & Hd). eauto.
    + change ("."%char :: ds) with (["."%char] ++ ds).
      rewrite last_token_app.
      destruct (last_token_digits _ Fds Nds) as (d & -> & Hd). eauto.
  - change (x :: sg ++ ds) with ((x :: sg) ++ ds).
    rewrite last_token_app.
    destruct (last_token_digits _ Fds Nds) as (d & -> & Hd). eauto.
Qed.

(** Whatever a value is, its last character is not a comma (and it has
    one). *)
Lemma json_value_last v :
  json_value v -> exists c, last_token v = Some c /\ c <> ","%char.
Proof.
  destruct 1 as [ | | |l Hn|l Hs|w _|es _|w _|ms _].
  1-3: eexists; split; [reflexivity | discriminate].
  - destruct (json_number_last _ Hn) as (d & E & Hd).
    exists d. split; [exact E | apply (digit_not_closer _ Hd)].
  - destruct Hs as [cs _]. exists quote. split; [|discriminate].
    change (quote :: cs ++ [quote]) with ((quote :: cs) ++ [quote]).
    now apply last_token_snoc.
  - exists "]"%char. split; [|discriminate].
    change ("["%char :: w ++ ["]"%char]) with (("["%char :: w) ++ ["]"%char]).
    now apply last_token_snoc.
  - exists "]"%char. split; [|discriminate].
    change ("["%char :: es ++ ["]"%char])
      with (("["%char :: es) ++ ["]"%char]).
    now apply last_token_snoc.
  - exists "}"%char. split; [|discriminate].
    change ("{"%char :: w ++ ["}"%char]) with (("{"%char :: w) ++ ["}"%char]).
    now apply last_token_snoc.
  - exists "}"%char. split; [|discriminate].
    change ("{"%char :: ms ++ ["}"%char])
      with (("{"%char :: ms) ++ ["}"%char]).
    now apply last_token_snoc.
Qed.

Lemma json_element_last e :
  json_element e -> exists c, last_token e = Some c /\ c <> ","%char.
Proof.
  destruct 1 as [w1 v w2 _ Hv Hw2].
  destruct (json_value_last _ Hv) as (c & E & N).
  exists c. split; [|exact N].
  now rewrite !last_token_app, (last_token_ws _ Hw2), E.
Qed.

Lemma json_member_last m :
  json_member m -> exists c, last_token m = Some c /\ c <> ","%char.
Proof.
  destruct 1 as [w1 k w2 e _ _ _ He].
  destruct (json_element_last _ He) as (c & E & N).
  exists c. split; [|exact N].
  change (":"%char :: e) with ([":"%char] ++ e).
  now rewrite !last_token_app, E.
Qed.

Lemma json_members_last ms :
  json_members ms -> exists c, last_token ms = Some c /\ c <> ","%char.
Proof.
  induction 1 as [m Hm|m ms Hm _ (c & E & N)].
  - now apply json_member_last.
  - exists c. split; [|exact N].
    change (","%char :: ms) with ([","%char] ++ ms).
    now rewrite !last_token_app, E.
Qed.

(** What stands before the closing brace of an object. *)
Lemma json_object_inside v body :
  json_value v -> v = body ++ ["}"%char] ->
  exists c, last_token body = Some c /\ c <> ","%char.
Proof.
  intros Hv E. destruct Hv as [ | | |l Hn|l Hs|w _|es _|w Hw|ms Hms].
  1-3: exfalso; apply (f_equal last_token) in E;
       rewrite last_token_snoc in E by reflexivity; discriminate E.
  - exfalso. destruct (json_number_last _ Hn) as (d & L & Hd).
    rewrite E, last_token_snoc in L by reflexivity.
    injection L as <-. discriminate Hd.
  - exfalso. destruct Hs as [cs _].
    change (quote :: cs ++ [quote]) with ((quote :: cs) ++ [quote]) in E.
    apply app_inj_tail in E as [_ E]. discriminate E.
  - exfalso.
    change ("["%char :: w ++ ["]"%char])
      with (("["%char :: w) ++ ["]"%char]) in E.
    apply app_inj_tail in E as [_ E]. discriminate E.
  - exfalso.
    change ("["%char :: es ++ ["]"%char])
      with (("["%char :: es) ++ ["]"%char]) in E.
    apply app_inj_tail in E as [_ E]. discriminate E.
  - change ("{"%char :: w ++ ["}"%char])
      with (("{"%char :: w) ++ ["}"%char]) in E.
    apply app_inj_tail in E as [<- _].
    exists "{"%char. split; [|discriminate].
    change ("{"%char :: w) with (["{"%char] ++ w).
    now rewrite last_token_app, (last_token_ws _ Hw).
  - change ("{"%char :: ms ++ ["}"%char])
      with (("{"%char :: ms) ++ ["}"%char]) in E.
    apply app_inj_tail in E as [<- _].
    destruct (json_members_last _ Hms) as (c & L & N).
    exists c. split; [|exact N].
    change ("{"%char :: ms) with (["{"%char] ++ ms).
    now rewrite last_token_app, L.
Qed.

Lemma nil_or_snoc (l : list ascii) :
  l = [] \/ exists l' c, l = l' ++ [c].
Proof. destruct l as [|c l] using rev_ind; [now left | right; eauto]. Qed.

(** No JSON text ends in a comma, white space and a closing brace. *)
Lemma trailing_comma_invalid pre w :
  ws w -> ~ json_element (pre ++ ","%char :: w ++ ["}"%char]).
Proof.
  intros Hw J.
  inversion J as [w1 v w2 _ Hv Hw2 E].
  destruct (nil_or_snoc w2) as [->|(w2' & c & ->)].
  - rewrite app_nil_r in E.
    assert (E' : w1 ++ v = (pre ++ ","%char :: w) ++ ["}"%char])
      by (rewrite <- app_assoc; exact E).
    destruct (nil_or_snoc v) as [->|(body & c & ->)].
    { destruct (json_value_last _ Hv) as (c & L & _). discriminate L. }
    rewrite app_assoc in E'. apply app_inj_tail in E' as [E' ->].
    destruct (json_object_inside _ body Hv eq_refl) as (c & L & N).
    apply (f_equal last_token) in E'.
    rewrite !last_token_app, L in E'. simpl in E'.
    rewrite (last_token_ws _ Hw) in E'. simpl in E'.
    injection E' as ->. now apply N.
  - assert (E' : (w1 ++ v ++ w2') ++ [c]
                 = (pre ++ ","%char :: w) ++ ["}"%char])
      by (rewrite <- !app_assoc; exact E).
    apply app_inj_tail in E' as [_ ->].
    apply Forall_app in Hw2 as [_ Hc]. inversion Hc as [|? ? Hc' _].
    discriminate Hc'.
Qed.

End JsonFacts.

Module JsonSamples.
Import Json.

(** The grammar accepts an object of the manifest's shape; the lemma
    above rejects such a text once a comma stands before its last
    brace. *)
Example json_accepts_manifest_shape :
  Json.valid
    ("{" +:+ q "name" +:+ ": " +:+ q "demo" +:+ "," +:+ nl
     +:+ " " +:+ q "devDependencies" +:+ ": {" +:+ nl +:+ "  "
     +:+ q "nodemon" +:+ ": " +:+ q "3.0.0" +:+ nl +:+ " }" +:+ nl +:+ "}").
Proof.
  assert (S : forall s, forallb is_unescaped (list_ascii_of_string s) = true ->
              json_string (list_ascii_of_string (q s))).
  { intros s F. unfold q. rewrite !list_ascii_append. apply string_intro.
    rewrite forallb_forall in F. revert F.
    induction (list_ascii_of_string s) as [|c l IH]; intros F;
      constructor; [apply F; now left | apply IH; intros x Hx; apply F; now right]. }
  assert (W : forall s, forallb is_ws (list_ascii_of_string s) = true ->
              ws (list_ascii_of_string s)).
  { intros s. rewrite forallb_forall. intros F. apply List.Forall_forall.
    exact F. }
  pose (inner := nl +:+ "  " +:+ q "nodemon" +:+ ": " +:+ q "3.0.0"
                 +:+ nl +:+ " ").
  pose (m1 := q "name" +:+ ": " +:+ q "demo").
  pose (m2 := nl +:+ " " +:+ q "devDependencies" +:+ ": {" +:+ inner
              +:+ "}" +:+ nl).
  unfold valid.
  apply (element_intro []
           ("{"%char :: list_ascii_of_string (m1 +:+ "," +:+ m2)
            ++ ["}"%char]) []); [constructor | | constructor].
  apply value_object.
  apply (members_more (list_ascii_of_string m1) (list_ascii_of_string m2)).
  - apply (member_intro [] (list_ascii_of_string (q "name")) []
             (list_ascii_of_string (" " +:+ q "demo")));
      [constructor | now apply S | constructor |].
    apply (element_intro (list_ascii_of_string " ")
             (list_ascii_of_string (q "demo")) []);
      [now apply W | | constructor].
    apply value_string. now apply S.
  - apply members_one.
    apply (member_intro (list_ascii_of_string (nl +:+ " "))
             (list_ascii_of_string (q "devDependencies")) []
             (list_ascii_of_string (" {" +:+ inner +:+ "}" +:+ nl)));
      [now apply W | now apply S | constructor |].
    apply (element_intro (list_ascii_of_string " ")
             ("{"%char :: list_ascii_of_string inner ++ ["}"%char])
             (list_ascii_of_string nl));
      [now apply W | | now apply W].
    apply value_object, members_one.
    apply (member_intro (list_ascii_of_string (nl +:+ "  "))
             (list_ascii_of_string (q "nodemon")) []
             (list_ascii_of_string (" " +:+ q "3.0.0" +:+ nl +:+ " ")));
      [now apply W | now apply S | constructor |].
    apply (element_intro (list_ascii_of_string " ")
             (list_ascii_of_string (q "3.0.0"))
             (list_ascii_of_string (nl +:+ " ")));
      [now apply W | | now apply W].
    apply value_string. now apply S.
Qed.

End JsonSamples.

(** ** Runs: a failing step is the error the [try] block throws *)

Section Failures.

Context {FS : Type} `{FileSystem FS}.

Lemma strict_quiet {A} (m : M FS A) :
  (forall s, journal (m s).2 = journal s) -> strict m.
Proof.
  intros Q s. exists []. rewrite Q, app_nil_r. split; [reflexivity|].
  intros ev e [].
Qed.

Lemma strict_log x : strict (FS := FS) (console_log x).
Proof.
  intros s. exists [EvLog x]. split; [reflexivity|].
  intros ev e [<-|[]]. discriminate.
Qed.

Lemma strict_mkdirSync p : strict (fs_mkdirSync p).
Proof.
  intros s. unfold fs_mkdirSync.
  destruct (mkdirSync p (fs s)) as [fs'|e0]; simpl;
    (eexists; split; [reflexivity|]); intros ev e [<-|[]]; simpl;
    congruence.
Qed.

Lemma strict_writeFileSync p c : strict (fs_writeFileSync p c).
Proof.
  intros s. unfold fs_writeFileSync.
  destruct (writeFileSync p c (fs s)) as [fs'|e0]; simpl;
    (eexists; split; [reflexivity|]); intros ev e [<-|[]]; simpl;
    congruence.
Qed.

Lemma strict_bind {A B} (m : M FS A) (k : A -> M FS B) :
  strict m -> (forall a, strict (k a)) -> strict (m ≫= k).
Proof.
  intros Hm Hk s. unfold mbind, M_bind, bind. cbv beta.
  destruct (Hm s) as (e1 & E1 & F1).
  destruct (m s) as [[a|e0] s1]; simpl in *.
  - destruct (Hk a s1) as (e2 & E2 & F2).
    exists (e1 ++ e2). rewrite E2, E1, app_assoc. split; [reflexivity|].
    intros ev e I Fe. apply in_app_iff in I as [I|I].
    + specialize (F1 ev e I Fe). discriminate F1.
    + exact (F2 ev e I Fe).
  - exists e1. split; [exact E1|].
    intros ev e I Fe. specialize (F1 ev e I Fe). now injection F1 as ->.
Qed.

Lemma strict_when c (m : M FS unit) : strict m -> strict (when c m).
Proof.
  destruct c; simpl; [auto|]. intros _. now apply strict_quiet.
Qed.

Ltac strict_steps :=
  repeat first
    [ apply strict_bind; [| intros ?]
    | apply strict_log | apply strict_mkdirSync | apply strict_writeFileSync
    | apply strict_when
    | apply strict_quiet; reflexivity ].

Lemma createApp_try_strict w : strict (createApp_try w).
Proof. unfold createApp_try. cbv zeta. strict_steps. Qed.

(** [m] cannot add [ev], so [ev] comes from what follows [m]. *)
Lemma throws_after_bind {A B} ev e (m : M FS A) (k : A -> M FS B) :
  emits (fun x => x <> ev) m ->
  (forall a, (exists s, (m s).1 = Ok a) -> throws_after ev e (k a)) ->
  throws_after ev e (m ≫= k).
Proof.
  intros Hm Hk s. unfold mbind, M_bind, bind. cbv beta.
  destruct (Hm s) as (e1 & E1 & F1). rewrite List.Forall_forall in F1.
  destruct (m s) as [[a|e0] s1] eqn:Em; simpl in *.
  - assert (Hr : exists s0, (m s0).1 = Ok a) by (exists s; now rewrite Em).
    destruct (Hk a Hr s1) as (e2 & E2 & F2).
    exists (e1 ++ e2). rewrite E2, E1, app_assoc. split; [reflexivity|].
    intros I. apply in_app_iff in I as [I|I]; [|exact (F2 I)].
    now destruct (F1 _ I).
  - exists e1. split; [exact E1|]. intros I. now destruct (F1 _ I).
Qed.

(** The write went through and the next thing awaited is rejected. *)
Lemma throws_after_write {A B} p c e (k : A -> M FS B) :
  throws_after (EvWrite p c None) e
    (fs_writeFileSync p c ≫= fun _ => await (Throw e) ≫= k).
Proof.
  intros s. unfold mbind, M_bind, bind, fs_writeFileSync, await. cbv beta.
  destruct (writeFileSync p c (fs s)) as [fs'|e0]; simpl.
  - eexists. split; [reflexivity|]. reflexivity.
  - eexists. split; [reflexivity|]. intros [I|[]]. discriminate I.
Qed.

End Failures.

Section FailedSteps.

Context {FS : Type} `{FileSystem FS}.

Ltac other_event :=
  first
    [ discriminate
    | let E := fresh in
      intros E; injection E as E; apply append_inj_l in E; discriminate E ].

(** Once app.js is written, a rejected dependencies batch is what the
    [try] block throws. *)
Lemma createApp_try_rejected_batch w a e :
  prompt w questions = Ok a ->
  Promise_all (firstToReject w) (dependenciesPromise w a) = Throw e ->
  throws_after
    (EvWrite (projectDirOf a +:+ "/app.js") (baseFileContent a) None) e
    (createApp_try w).
Proof.
  intros Hp Hd. unfold createApp_try. cbv zeta.
  apply throws_after_bind; [apply emits_log; discriminate | intros _ _].
  apply throws_after_bind; [apply emits_await | intros a' [s0 Ha]].
  simpl in Ha. rewrite Hp in Ha. injection Ha as <-.
  rewrite Hd.
  apply throws_after_bind; [apply emits_existsSync | intros present _].
  apply throws_after_bind.
  { apply emits_when. intros _.
    repeat first [ apply emits_bind; [| intros ? ?]
                 | apply emits_mkdirSync; intros ?; discriminate ]. }
  intros _ _. apply throws_after_bind.
  { apply emits_when. intros _.
    repeat first [ apply emits_bind; [| intros ? ?]
                 | apply emits_writeFileSync; intros ?; other_event ]. }
  intros _ _. apply throws_after_bind.
  { apply emits_when. intros _.
    apply emits_writeFileSync; intros ?; other_event. }
  intros _ _.
  exact (throws_after_write _ _ _ _).
Qed.

(** The journal of a run is that of the [try] block, and the line the
    [catch] prints when the block threw. *)
Lemma run_journal w fs0 :
  journal (run w fs0).2
  = journal (createApp_try w (initial fs0)).2 ++
    match (createApp_try w (initial fs0)).1 with
    | Ok _ => []
    | Throw e => [EvLog (LogError e)]
    end.
Proof. unfold run. now rewrite main_createApp, createApp_journal. Qed.

(** An event of the run that is not a printed line is an event of the
    [try] block. *)
Lemma run_event_of_try w fs0 ev :
  In ev (journal (run w fs0).2) -> (forall x, ev <> EvLog x) ->
  In ev (journal (createApp_try w (initial fs0)).2).
Proof.
  rewrite run_journal. intros I N. apply in_app_iff in I as [I|I];
    [exact I|].
  destruct (createApp_try w (initial fs0)).1; [destruct I|].
  destruct I as [<-|[]]. now destruct (N (LogError e)).
Qed.

(** A step that fails with [e] makes the [try] block throw [e]. *)
Lemma step_fails_thrown w fs0 e :
  step_fails w fs0 e -> (createApp_try w (initial fs0)).1 = Throw e.
Proof.
  intros [Hp|ev I Fe|a Hp I Hd].
  - now rewrite (createApp_try_aborted w e _ Hp).
  - assert (N : forall x, ev <> EvLog x) by (intros x ->; discriminate Fe).
    pose proof (run_event_of_try w fs0 ev I N) as I'.
    destruct (createApp_try_strict w (initial fs0)) as (evs & E & F).
    rewrite E in I'. exact (F ev e I' Fe).
  - assert (N : forall x,
               EvWrite (projectDirOf a +:+ "/app.js") (baseFileContent a) None
               <> EvLog x) by discriminate.
    pose proof (run_event_of_try w fs0 _ I N) as I'.
    destruct (createApp_try_rejected_batch w a e Hp Hd (initial fs0))
      as (evs & E & F).
    rewrite E in I'. exact (F I').
Qed.

End FailedSteps.


(** ** Text and runs: more lemmas *)

Lemma substring_all h : String.substring 0 (String.length h) h = h.
Proof. induction h as [|d h IH]; simpl; [reflexivity | now f_equal]. Qed.

Lemma cut_prefix n h :
  String.prefix n h = true ->
  h = n +:+ String.substring (String.length n)
              (String.length h - String.length n) h.
Proof.
  revert h. induction n as [|c n IH]; intros h P.
  - change (h = String.substring 0 (String.length h - 0) h).
    now rewrite Nat.sub_0_r, substring_all.
  - destruct h as [|d h]; simpl in P; [discriminate|].
    destruct (Ascii.ascii_dec c d) as [->|_]; [|discriminate].
    change (String d h
            = String d (n +:+ String.substring (String.length n)
                                (String.length h - String.length n) h)).
    f_equal. exact (IH h P).
Qed.

(** [cut] splits at an occurrence. *)
Lemma cut_spec n h before after :
  cut n h = Some (before, after) -> h = before +:+ n +:+ after.
Proof.
  revert before after. induction h as [|c h IH]; intros before after.
  - cbn [cut]. destruct (String.prefix n "") eqn:P; [|discriminate].
    intros E. injection E as <- <-. exact (cut_prefix _ _ P).
  - cbn [cut]. destruct (String.prefix n (String c h)) eqn:P.
    + intros E. injection E as <- <-. exact (cut_prefix _ _ P).
    + destruct (cut n h) as [[b a]|]; [|discriminate].
      intros E. injection E as <- <-.
      change (String c h = String c (b +:+ n +:+ a)).
      f_equal. now apply IH.
Qed.

Lemma Promise_all_values {A} n (ps : list (result A)) l :
  Promise_all n ps = Ok l -> map Ok l = ps.
Proof.
  unfold Promise_all. destruct (rejections ps) as [|e0 es] eqn:R;
    [|discriminate].
  intros E. injection E as <-.
  induction ps as [|[a|e1] ps IH]; simpl in *;
    [reflexivity | f_equal; auto | discriminate].
Qed.

Section MoreRuns.

Context {FS : Type} `{FileSystem FS}.

Lemma orderly_quiet {A} (m : M FS A) :
  (forall s, journal (m s).2 = journal s) -> orderly m.
Proof.
  intros Q s. exists []. rewrite Q, app_nil_r. split; [reflexivity|].
  destruct (m s).1; [constructor | left; constructor].
Qed.

Lemma orderly_log x : orderly (FS := FS) (console_log x).
Proof.
  intros s. exists [EvLog x]. split; [reflexivity|]. simpl.
  repeat constructor.
Qed.

Lemma orderly_mkdirSync p : orderly (fs_mkdirSync p).
Proof.
  intros s. unfold fs_mkdirSync.
  destruct (mkdirSync p (fs s)) as [fs'|e0]; simpl;
    (eexists; split; [reflexivity|]).
  - repeat constructor.
  - right. exists [], (EvMkdir p (Some e0)). repeat split. constructor.
Qed.

Lemma orderly_writeFileSync p c : orderly (fs_writeFileSync p c).
Proof.
  intros s. unfold fs_writeFileSync.
  destruct (writeFileSync p c (fs s)) as [fs'|e0]; simpl;
    (eexists; split; [reflexivity|]).
  - repeat constructor.
  - right. exists [], (EvWrite p c (Some e0)). repeat split. constructor.
Qed.

Lemma orderly_bind {A B} (m : M FS A) (k : A -> M FS B) :
  orderly m -> (forall a, orderly (k a)) -> orderly (m ≫= k).
Proof.
  intros Hm Hk s. unfold mbind, M_bind, bind. cbv beta.
  destruct (Hm s) as (e1 & E1 & F1).
  destruct (m s) as [[a|e0] s1]; simpl in *.
  - destruct (Hk a s1) as (e2 & E2 & F2).
    exists (e1 ++ e2). rewrite E2, E1, app_assoc. split; [reflexivity|].
    destruct (k a s1).1 as [b|e].
    + apply Forall_app. split; assumption.
    + destruct F2 as [F2|(pre & last & -> & Fp & Fl)].
      * left. apply Forall_app. split; assumption.
      * right. exists (e1 ++ pre), last. rewrite app_assoc.
        repeat split; [|exact Fl]. apply Forall_app. split; assumption.
  - exists e1. split; [exact E1 | exact F1].
Qed.

Lemma orderly_when c (m : M FS unit) : orderly m -> orderly (when c m).
Proof.
  destruct c; simpl; [auto|]. intros _. now apply orderly_quiet.
Qed.

Lemma createApp_try_orderly w : orderly (createApp_try w).
Proof.
  unfold createApp_try. cbv zeta.
  repeat first
    [ apply orderly_bind; [| intros ?]
    | apply orderly_log | apply orderly_mkdirSync
    | apply orderly_writeFileSync | apply orderly_when
    | apply orderly_quiet; reflexivity ].
Qed.

Lemma never_throws_log x : never_throws (FS := FS) (console_log x).
Proof. intros s. now exists tt. Qed.

Lemma never_throws_bind {A B} (m : M FS A) (k : A -> M FS B) :
  never_throws m -> (forall a, never_throws (k a)) -> never_throws (m ≫= k).
Proof.
  intros Hm Hk s. unfold mbind, M_bind, bind. cbv beta.
  destruct (Hm s) as [a Ea].
  destruct (m s) as [[a'|e] s1]; simpl in *; [|discriminate].
  apply Hk.
Qed.

Lemma on_throw_never {A} P (m : M FS A) : never_throws m -> on_throw P m.
Proof. intros N s e E. destruct (N s) as [a Ea]. congruence. Qed.

Lemma on_throw_emits {A} P (m : M FS A) : emits P m -> on_throw P m.
Proof. intros E s e _. exact (E s). Qed.

Lemma on_throw_bind {A B} P (m : M FS A) (k : A -> M FS B) :
  emits P m -> (forall a, on_throw P (k a)) -> on_throw P (m ≫= k).
Proof.
  intros Hm Hk s e. unfold mbind, M_bind, bind. cbv beta.
  destruct (Hm s) as (e1 & E1 & F1).
  destruct (m s) as [[a|e0] s1]; simpl in *.
  - intros T. destruct (Hk a s1 e T) as (e2 & E2 & F2).
    exists (e1 ++ e2). rewrite E2, E1, app_assoc. split; [reflexivity|].
    apply Forall_app. split; assumption.
  - intros _. exists e1. split; assumption.
Qed.

(** When the [try] block throws, the success line has not been
    printed. *)
Lemma createApp_try_on_throw w :
  on_throw (fun ev => forall n, ev <> EvLog (successLine n))
    (createApp_try w).
Proof.
  unfold createApp_try. cbv zeta.
  apply on_throw_bind; [apply emits_log; discriminate | intros _].
  apply on_throw_bind; [apply emits_await | intros answer].
  apply on_throw_bind; [apply emits_existsSync | intros present].
  apply on_throw_bind.
  { apply emits_when. intros _.
    repeat first [ apply emits_bind; [| intros ? ?]
                 | apply emits_mkdirSync; intros ?; discriminate ]. }
  intros _. apply on_throw_bind.
  { apply emits_when. intros _.
    repeat first [ apply emits_bind; [| intros ? ?]
                 | apply emits_writeFileSync; intros ?; discriminate ]. }
  intros _. apply on_throw_bind.
  { apply emits_when. intros _.
    apply emits_writeFileSync; intros ?; discriminate. }
  intros _. apply on_throw_bind;
    [apply emits_writeFileSync; intros ?; discriminate | intros _].
  apply on_throw_bind; [apply emits_await | intros ds].
  apply on_throw_bind; [apply emits_await | intros dds].
  apply on_throw_bind;
    [apply emits_writeFileSync; intros ?; discriminate | intros _].
  apply on_throw_bind; [apply emits_log; discriminate | intros _].
  apply on_throw_never.
  repeat first [ apply never_throws_log
               | apply never_throws_bind; [| intros ?] ].
Qed.

(** The [try] block prints no error: only the [catch] does. *)
Lemma createApp_try_prints_no_error w :
  emits (fun ev => forall e, ev <> EvLog (LogError e)) (createApp_try w).
Proof.
  unfold createApp_try. cbv zeta.
  repeat first
    [ apply emits_bind; [| intros ? ?]
    | apply emits_log; discriminate | apply emits_await
    | apply emits_existsSync
    | apply emits_when; intros ?
    | apply emits_mkdirSync; intros ?; discriminate
    | apply emits_writeFileSync; intros ?; discriminate ].
Qed.

End MoreRuns.

Lemma append_nil_r (s : string) : s +:+ "" = s.
Proof.
  induction s as [|c s IH]; [reflexivity|].
  change (String c (s +:+ "") = String c s). now f_equal.
Qed.

Lemma cut_parts n h :
  cut n h <> None -> h = before n h +:+ n +:+ after n h.
Proof.
  unfold before, after. destruct (cut n h) as [[b a]|] eqn:C;
    [intros _; now apply cut_spec | intros N; now destruct N].
Qed.


(** The two batches of a run ask the registry about the requested
    names only. *)
Lemma batches_agree w1 w2 a :
  (forall p, In p (requested a) ->
             getLatestVersion w1 p = getLatestVersion w2 p) ->
  dependenciesPromise w1 a = dependenciesPromise w2 a /\
  devDependenciesPromise w1 = devDependenciesPromise w2.
Proof.
  intros G. unfold dependenciesPromise, devDependenciesPromise, requested in *.
  destruct (useCors a), (useEnvFile a); simpl in *;
    repeat match goal with
           | |- context [getLatestVersion w1 ?p] =>
               rewrite (G p) by tauto
           end; split; reflexivity.
Qed.

(** One failing element between two stretches of calls that returned
    is found at one place only. *)
Lemma failure_position (pre1 : list event) x post1 pre2 y post2 e :
  pre1 ++ x :: post1 = pre2 ++ y :: post2 ->
  failure x = Some e ->
  Forall (fun ev => failure ev = None) pre2 ->
  Forall (fun ev => failure ev = None) post2 ->
  pre1 = pre2 /\ x = y /\ post1 = post2.
Proof.
  revert pre2. induction pre1 as [|a pre1 IH]; intros [|z pre2] E Fx F2 P2;
    simpl in E; injection E as E1 E2.
  - now subst.
  - subst z. inversion F2; congruence.
  - subst. rewrite List.Forall_forall in P2.
    assert (I : In x (pre1 ++ x :: post1)) by (apply in_app_iff; right; now left).
    specialize (P2 _ I). congruence.
  - subst z. inversion F2; subst.
    destruct (IH pre2 E2 Fx) as (-> & -> & ->); auto.
Qed.


(** ** Runs: how far a run gets *)

Section Blame.

Context {FS : Type} `{FileSystem FS}.

Lemma blames_quiet {A} E (m : M FS A) :
  (forall s, journal (m s).2 = journal s) ->
  (forall s e, (m s).1 = Throw e -> E e) ->
  blames E m.
Proof.
  intros Q T s. exists []. rewrite Q, app_nil_r. split; [reflexivity|].
  intros e He. left. exact (T s e He).
Qed.

Lemma blames_log E x : blames (FS := FS) E (console_log x).
Proof.
  intros s. exists [EvLog x]. split; [reflexivity|]. discriminate.
Qed.

Lemma blames_mkdirSync E p : blames E (fs_mkdirSync p).
Proof.
  intros s. unfold fs_mkdirSync.
  destruct (mkdirSync p (fs s)) as [fs'|e0]; simpl;
    (eexists; split; [reflexivity|]); intros e He; [discriminate|].
  injection He as <-. right. eexists. split; [now left | reflexivity].
Qed.

Lemma blames_writeFileSync E p c : blames E (fs_writeFileSync p c).
Proof.
  intros s. unfold fs_writeFileSync.
  destruct (writeFileSync p c (fs s)) as [fs'|e0]; simpl;
    (eexists; split; [reflexivity|]); intros e He; [discriminate|].
  injection He as <-. right. eexists. split; [now left | reflexivity].
Qed.

Lemma blames_bind {A B} E (m : M FS A) (k : A -> M FS B) :
  blames E m ->
  (forall a, (exists s, (m s).1 = Ok a) -> blames E (k a)) ->
  blames E (m ≫= k).
Proof.
  intros Hm Hk s. unfold mbind, M_bind, bind. cbv beta.
  destruct (Hm s) as (e1 & E1 & F1).
  destruct (m s) as [[a|e0] s1] eqn:Em; simpl in *.
  - assert (Hr : exists s0, (m s0).1 = Ok a) by (exists s; now rewrite Em).
    destruct (Hk a Hr s1) as (e2 & E2 & F2).
    exists (e1 ++ e2). rewrite E2, E1, app_assoc. split; [reflexivity|].
    intros e He. destruct (F2 e He) as [B1|(ev & I & Fe)]; [now left|].
    right. exists ev. split; [apply in_app_iff; now right | exact Fe].
  - exists e1. split; [exact E1|].
    intros e He. injection He as <-.
    destruct (F1 e0 eq_refl) as [B1|(ev & I & Fe)]; [now left|].
    right. now exists ev.
Qed.

Lemma blames_when E c (m : M FS unit) : blames E m -> blames E (when c m).
Proof.
  destruct c; simpl; [auto|]. intros _.
  apply blames_quiet; [reflexivity | discriminate].
Qed.

(** [m] can only stop with a failed call and makes no [Q] call, so
    the checkpoint is up to what follows [m]. *)
Lemma checkpoint_bind {A B} P Q (m : M FS A) (k : A -> M FS B) :
  blames (fun _ => False) m ->
  emits (fun ev => ~ Q ev) m ->
  (forall a, (exists s, (m s).1 = Ok a) -> checkpoint P Q (k a)) ->
  checkpoint P Q (m ≫= k).
Proof.
  intros Hb Hm Hk s. unfold mbind, M_bind, bind. cbv beta.
  destruct (Hm s) as (e1 & E1 & F1).
  destruct (Hb s) as (e1' & E1' & B1).
  rewrite E1 in E1'. apply app_inv_head in E1'. subst e1'.
  destruct (m s) as [[a|e0] s1] eqn:Em; simpl in *.
  - assert (Hr : exists s0, (m s0).1 = Ok a) by (exists s; now rewrite Em).
    destruct (Hk a Hr s1) as (e2 & E2 & C2).
    exists (e1 ++ e2). rewrite E2, E1, app_assoc. split; [reflexivity|].
    destruct C2 as [I|[(ev & e & I & Fe) N]].
    + left. apply in_app_iff. now right.
    + right. split.
      * exists ev, e. split; [apply in_app_iff; now right | exact Fe].
      * apply Forall_app. split; assumption.
  - exists e1. split; [exact E1|]. right. split; [|exact F1].
    destruct (B1 e0 eq_refl) as [[]|(ev & I & Fe)]. now exists ev, e0.
Qed.

(** The write is the checkpoint itself. *)
Lemma checkpoint_write {B} Q p c (k : unit -> M FS B) :
  (forall o, ~ Q (EvWrite p c o)) ->
  (forall a, emits (fun _ => True) (k a)) ->
  checkpoint (EvWrite p c None) Q (fs_writeFileSync p c ≫= k).
Proof.
  intros NQ Hk s. unfold mbind, M_bind, bind, fs_writeFileSync. cbv beta.
  destruct (writeFileSync p c (fs s)) as [fs'|e0]; simpl.
  - destruct (Hk tt {| fs := fs';
                       journal := journal s ++ [EvWrite p c None] |})
      as (e2 & E2 & _).
    exists ([EvWrite p c None] ++ e2). rewrite E2. simpl.
    rewrite <- app_assoc. split; [reflexivity|]. left. now left.
  - eexists. split; [reflexivity|]. right. split.
    + eexists _, e0. split; [now left | reflexivity].
    + repeat constructor. apply NQ.
Qed.

(** With an environment file asked for, the [try] block gets as far
    as writing .env; or else one of its [fs] calls failed, and it did
    not get to app.js. *)
Lemma createApp_try_reaches_env w a :
  prompt w questions = Ok a ->
  useEnvFile a = true ->
  checkpoint
    (EvWrite (projectDirOf a +:+ "/.env") envFileContent None)
    (writes_to (projectDirOf a +:+ "/app.js"))
    (createApp_try w).
Proof.
  intros Hp He. unfold createApp_try, projectDirOf. cbv zeta. rewrite Hp.
  apply checkpoint_bind;
    [ apply blames_log
    | apply emits_log; intros (c & o & E); discriminate E
    | intros _ _ ].
  apply checkpoint_bind;
    [ apply blames_quiet; [reflexivity | discriminate]
    | apply emits_await
    | intros a' [s0 Ha] ].
  simpl in Ha. injection Ha as <-. rewrite He.
  apply checkpoint_bind;
    [ apply blames_quiet; [reflexivity | discriminate]
    | apply emits_existsSync
    | intros present _ ].
  apply checkpoint_bind.
  { apply blames_when.
    repeat first [ apply blames_bind; [| intros ? ?]
                 | apply blames_mkdirSync ]. }
  { apply emits_when. intros _.
    repeat first [ apply emits_bind; [| intros ? ?]
                 | apply emits_mkdirSync; intros ? (c & o & E);
                   discriminate E ]. }
  intros _ _. apply checkpoint_bind.
  { apply blames_when.
    repeat first [ apply blames_bind; [| intros ? ?]
                 | apply blames_writeFileSync ]. }
  { apply emits_when. intros _.
    repeat first [ apply emits_bind; [| intros ? ?]
                 | apply emits_writeFileSync; intros ? (c & o & E);
                   injection E as E _ _; apply append_inj_l in E;
                   discriminate E ]. }
  intros _ _.
  change (when true ?m) with m.
  apply checkpoint_write.
  - intros o (c & o' & E). injection E as E _ _.
    apply append_inj_l in E. discriminate E.
  - intros _.
    repeat first
      [ apply emits_bind; [| intros ? ?]
      | apply emits_log | apply emits_await
      | apply emits_writeFileSync; intros ? ]; exact I.
Qed.

(** What can make the [try] block throw. *)
Lemma createApp_try_blames w :
  blames
    (fun e =>
       prompt w questions = Throw e \/
       exists a, prompt w questions = Ok a /\
         (Promise_all (firstToReject w) (dependenciesPromise w a) = Throw e \/
          Promise_all (firstToReject w) (devDependenciesPromise w) = Throw e))
    (createApp_try w).
Proof.
  unfold createApp_try. cbv zeta.
  apply blames_bind; [apply blames_log | intros _ _].
  apply blames_bind.
  { apply blames_quiet; [reflexivity|]. intros s e He. left. exact He. }
  intros a [s0 Ha]. simpl in Ha.
  apply blames_bind.
  { apply blames_quiet; [reflexivity | discriminate]. }
  intros present _.
  apply blames_bind.
  { apply blames_when.
    repeat first [ apply blames_bind; [| intros ? ?] | apply blames_mkdirSync ]. }
  intros _ _. apply blames_bind.
  { apply blames_when.
    repeat first [ apply blames_bind; [| intros ? ?]
                 | apply blames_writeFileSync ]. }
  intros _ _. apply blames_bind.
  { apply blames_when. apply blames_writeFileSync. }
  intros _ _. apply blames_bind; [apply blames_writeFileSync | intros _ _].
  apply blames_bind.
  { apply blames_quiet; [reflexivity|]. intros s e He. right.
    exists a. split; [exact Ha | left; exact He]. }
  intros ds _. apply blames_bind.
  { apply blames_quiet; [reflexivity|]. intros s e He. right.
    exists a. split; [exact Ha | right; exact He]. }
  intros dds _.
  repeat first [ apply blames_bind; [| intros ? ?]
               | apply blames_writeFileSync | apply blames_log ].
Qed.

End Blame.
(** ** Properties of the generator *)

Lemma Promise_all_ok {A} n (ps : list (result A)) l e :
  Promise_all n ps = Ok l -> ~ In (Throw e) ps.
Proof.
  unfold Promise_all. destruct (rejections ps) as [|e0 es] eqn:R;
    [intros _ | discriminate].
  induction ps as [|[a|e1] ps IH]; simpl in *.
  - tauto.
  - intros [E|I]; [discriminate | now apply IH].
  - discriminate.
Qed.

(** The manifest text, whatever is interpolated: the devDependencies
    object closes, a comma follows, and after white space the text ends
    with the closing brace of the whole. *)
Lemma packageJsonContent_trailing_comma projectName deps devDeps :
  (exists pre,
     packageJsonContent projectName deps devDeps
     = pre +:+ q "devDependencies" +:+ ": {" +:+ nl +:+ sp 12
       +:+ join "," devDeps +:+ nl +:+ sp 8 +:+ "}" +:+ ","
       +:+ nl +:+ sp 4 +:+ "}") /\
  ~ Json.valid (packageJsonContent projectName deps devDeps).
Proof.
  split.
  - exists (packageJsonHead projectName +:+ join "," deps
            +:+ nl +:+ sp 8 +:+ "}," +:+ nl +:+ sp 8).
    unfold packageJsonContent. rewrite !append_assoc. reflexivity.
  - assert (E : packageJsonContent projectName deps devDeps
                 = (packageJsonHead projectName +:+ join "," deps
                    +:+ packageJsonMiddle +:+ join "," devDeps
                    +:+ nl +:+ sp 8 +:+ "}")
                   +:+ ("," +:+ (nl +:+ sp 4) +:+ "}")).
    { unfold packageJsonContent. rewrite !append_assoc. reflexivity. }
    unfold Json.valid. rewrite E, list_ascii_append.
    change (list_ascii_of_string ("," +:+ (nl +:+ sp 4) +:+ "}"))
      with (","%char :: list_ascii_of_string (nl +:+ sp 4) ++ ["}"%char]).
    apply JsonFacts.trailing_comma_invalid.
    repeat constructor.
Qed.

(** Inverting [may_perform] on a write leaves equations between two
    paths under the project directory; they hold only for equal names. *)
Ltac path_clash :=
  match goal with
  | E : ?d +:+ _ = ?d +:+ _ |- _ =>
      apply append_inj_l in E; discriminate E
  end.

(** Finding an event in a journal that has been computed. *)
Ltac pick_event := repeat first [left; reflexivity | right].

Import Examples MemFs.

(** *** C1 *)

(** C1 as stated fails: the user closes the prompt, the error is
    printed, and the process exits with code zero. *)
Lemma closed_prompt_exits_zero :
  step_fails abortedWorld empty_cwd closed /\
  journal (run abortedWorld empty_cwd).2
  = [EvLog (LogText
       (Plain "Create an Express.js project from this CLI TOOL! 🚀"));
     EvLog (LogError closed)] /\
  exitCode (run abortedWorld empty_cwd).1 = 0%Z /\
  ~ (forall (w : World) (fs0 : gmap string node) e,
       step_fails w fs0 e -> exitCode (run w fs0).1 <> 0%Z).
Proof.
  assert (A : step_fails abortedWorld empty_cwd closed)
    by (now apply prompt_fails).
  assert (Z : exitCode (run abortedWorld empty_cwd).1 = 0%Z)
    by (unfold run; now rewrite main_createApp, createApp_returns).
  split; [exact A|]. split; [now apply run_aborted|]. split; [exact Z|].
  intros C. exact (C abortedWorld empty_cwd closed A Z).
Qed.

(** C1, as the code has it.  When a step fails (input collection, a
    filesystem call, a lookup of the dependencies batch), the [catch]
    of [createApp] prints the error with [console.log] as the last
    thing the run does, and the run ends as a successful one does:
    nothing sets an exit code, so the process exits with code zero.
    Stated for runs whose nodemon lookup fulfils: that promise is
    awaited only after the first batch, and what Node does with its
    rejection before then is outside this model. *)
Theorem failed_step_is_printed_and_exit_is_zero
    {FS : Type} `{FileSystem FS} (w : World) (fs0 : FS) :
  (exists d, getLatestVersion w "nodemon" = Ok d) ->
  exitCode (run w fs0).1 = 0%Z /\
  forall e, step_fails w fs0 e ->
    exists before, journal (run w fs0).2 = before ++ [EvLog (LogError e)].
Proof.
  intros _. split.
  - unfold run. now rewrite main_createApp, createApp_returns.
  - intros e S. rewrite run_journal, (step_fails_thrown w fs0 e S).
    now eexists.
Qed.

(** On the leftover root the write of middlewares/error.js fails. *)
Lemma failed_step_witness :
  (exists d, getLatestVersion demoWorld "nodemon" = Ok d) /\
  step_fails demoWorld leftover
    (FsError "open" "ENOENT" "./demo/middlewares/error.js") /\
  exitCode (run demoWorld leftover).1 = 0%Z /\
  exists before,
    journal (run demoWorld leftover).2
    = before
      ++ [EvLog (LogError
                   (FsError "open" "ENOENT" "./demo/middlewares/error.js"))].
Proof.
  assert (N : exists d, getLatestVersion demoWorld "nodemon" = Ok d)
    by (eexists; reflexivity).
  assert (S : step_fails demoWorld leftover
                (FsError "open" "ENOENT" "./demo/middlewares/error.js")).
  { apply (fs_call_fails _ _ _
             (EvWrite "./demo/middlewares/error.js" jsErrorMiddleware
                (Some (FsError "open" "ENOENT"
                         "./demo/middlewares/error.js"))));
      [vm_compute; pick_event | reflexivity]. }
  destruct (failed_step_is_printed_and_exit_is_zero demoWorld leftover N)
    as [Z P].
  split; [exact N|]. split; [exact S|]. split; [exact Z | exact (P _ S)].
Defined.

(** *** C2 *)

Module MiddlewareClaims.
Import ErrorMiddleware.

(** C2 as stated fails: TEST is not the production mode, and the body
    carries no error object there. *)
Lemma errorMiddleware_omits_error_in_test_mode :
  let boom := {| err_message := Str "boom"; err_statusCode := Num 400 |} in
  "TEST" <> production /\
  res_error (json (errorMiddleware "TEST" boom)) = None /\
  ~ (forall envMode err,
       envMode <> production <->
       res_error (json (errorMiddleware envMode err)) <> None).
Proof.
  split; [discriminate|]. split; [reflexivity|].
  intros C.
  destruct (C "TEST" {| err_message := Str "boom"; err_statusCode := Num 400 |})
    as [C1 _].
  apply C1; [discriminate | reflexivity].
Qed.

(** C2, as the code has it.  For every error object the middleware
    replaces a falsy message by "Internal Server Error" and a falsy
    status code by 500, and replies at that status code with a body
    whose [success] is false and whose [message] is that message; the
    body carries the error object (with the two defaults filled in)
    exactly when [envMode] is the string DEVELOPMENT, and in no other
    mode, production or not. *)
Theorem errorMiddleware_reply (envMode : string) (err : Err) :
  let r := errorMiddleware envMode err in
  res_success (json r) = false /\
  res_message (json r)
  = (if truthy (err_message err) then err_message err
     else Str "Internal Server Error") /\
  status r
  = (if truthy (err_statusCode err) then err_statusCode err else Num 500) /\
  res_error (json r)
  = (if String.eqb envMode "DEVELOPMENT"
     then Some {| err_message := res_message (json r);
                  err_statusCode := status r |}
     else None) /\
  (res_error (json r) <> None <-> envMode = "DEVELOPMENT").
Proof.
  unfold errorMiddleware, or. simpl.
  destruct (String.eqb_spec envMode "DEVELOPMENT") as [->|N]; simpl.
  - repeat split; congruence.
  - repeat split; congruence.
Qed.

End MiddlewareClaims.

(** *** C3 *)

(** C3.  When a version lookup of either batch rejects, the run makes
    no [writeFileSync] call on package.json at all. *)
Theorem failed_lookup_writes_no_manifest
    {FS : Type} `{FileSystem FS} (w : World) (fs0 : FS) a e :
  prompt w questions = Ok a ->
  In (Throw e) (dependenciesPromise w a ++ devDependenciesPromise w) ->
  forall c o,
    ~ In (EvWrite (projectDirOf a +:+ "/package.json") c o)
        (journal (run w fs0).2).
Proof.
  intros Hp Hfail c o Hin.
  pose proof (run_events w a fs0 Hp) as F.
  rewrite List.Forall_forall in F. specialize (F _ Hin).
  inversion F; try path_clash.
  apply in_app_iff in Hfail as [I|I].
  - match goal with
    | Hds : Promise_all _ (dependenciesPromise w a) = Ok _ |- _ =>
        exact (Promise_all_ok _ _ _ _ Hds I)
    end.
  - match goal with
    | Hdds : Promise_all _ (devDependenciesPromise w) = Ok _ |- _ =>
        exact (Promise_all_ok _ _ _ _ Hdds I)
    end.
Qed.

(** The cors lookup fails: no manifest. *)
Lemma failed_lookup_witness :
  prompt corsDownWorld questions = Ok demo /\
  In (Throw (LookupError "cors" "getaddrinfo ENOTFOUND registry.npmjs.org"))
    (dependenciesPromise corsDownWorld demo
     ++ devDependenciesPromise corsDownWorld) /\
  forall c o,
    ~ In (EvWrite "./demo/package.json" c o)
        (journal (run corsDownWorld empty_cwd).2).
Proof.
  assert (P : prompt corsDownWorld questions = Ok demo) by reflexivity.
  assert (I : In (Throw (LookupError "cors"
                           "getaddrinfo ENOTFOUND registry.npmjs.org"))
                (dependenciesPromise corsDownWorld demo
                 ++ devDependenciesPromise corsDownWorld))
    by (right; left; reflexivity).
  split; [exact P|]. split; [exact I|].
  exact (failed_lookup_writes_no_manifest corsDownWorld empty_cwd demo _ P I).
Defined.

(** *** C4 *)

(** C4.  When the project root already exists, the run makes no
    [mkdirSync] call: no directory is created, none of the six
    subdirectories either, and no error can come from creating one. *)
Theorem existing_root_makes_no_directory
    {FS : Type} `{FileSystem FS} (w : World) (fs0 : FS) a :
  prompt w questions = Ok a ->
  existsSync (projectDirOf a) fs0 = true ->
  forall p o, ~ In (EvMkdir p o) (journal (run w fs0).2).
Proof.
  intros Hp Hex p o Hin.
  pose proof (run_events w a fs0 Hp) as F.
  rewrite List.Forall_forall in F. specialize (F _ Hin).
  inversion F. congruence.
Qed.

(** The leftover root exists, its middlewares directory does not:
    nothing is created under it. *)
Lemma existing_root_witness :
  prompt demoWorld questions = Ok demo /\
  existsSync "./demo" leftover = true /\
  existsSync "./demo/middlewares" leftover = false /\
  forall p o, ~ In (EvMkdir p o) (journal (run demoWorld leftover).2).
Proof.
  assert (P : prompt demoWorld questions = Ok demo) by reflexivity.
  assert (E : existsSync (projectDirOf demo) leftover = true)
    by (vm_compute; reflexivity).
  split; [exact P|]. split; [exact E|].
  split; [vm_compute; reflexivity|].
  exact (existing_root_makes_no_directory demoWorld leftover demo P E).
Defined.

(** *** C5 *)

(** C5.  With [useErrorHandler] false, app.js has no error-middleware
    import line and no registration line (the name [errorMiddleware]
    does not occur in it), and neither middlewares/error.js nor
    utils/errorHandler.js is written. *)
Theorem no_error_handler_no_error_files
    {FS : Type} `{FileSystem FS} (w : World) (fs0 : FS) a :
  prompt w questions = Ok a ->
  useErrorHandler a = false ->
  ~ In errorMiddlewareImport (importLines a) /\
  (forall pre post,
     baseFileContent a <> pre +:+ errorMiddlewareImport +:+ post) /\
  (forall pre post,
     baseFileContent a <> pre +:+ errorMiddlewareUse +:+ post) /\
  (forall pre post,
     baseFileContent a <> pre +:+ "errorMiddleware" +:+ post) /\
  (forall c o,
     ~ In (EvWrite (projectDirOf a +:+ "/middlewares/error.js") c o)
         (journal (run w fs0).2)) /\
  (forall c o,
     ~ In (EvWrite (projectDirOf a +:+ "/utils/errorHandler.js") c o)
         (journal (run w fs0).2)).
Proof.
  intros Hp He.
  pose proof (run_events w a fs0 Hp) as F.
  rewrite List.Forall_forall in F.
  split; [|split; [|split; [|split; [|split]]]].
  - destruct a as [n c e v]. simpl in He. subst e.
    unfold importLines. simpl.
    destruct c, v; simpl; intros I;
      repeat (destruct I as [I|I]; [vm_compute in I; discriminate I|]);
      exact I.
  - apply occurs_false. destruct a as [n c e v]. simpl in He. subst e.
    destruct c, v; vm_compute; reflexivity.
  - apply occurs_false. destruct a as [n c e v]. simpl in He. subst e.
    destruct c, v; vm_compute; reflexivity.
  - apply occurs_false. destruct a as [n c e v]. simpl in He. subst e.
    destruct c, v; vm_compute; reflexivity.
  - intros c o Hin. specialize (F _ Hin).
    inversion F; try path_clash. congruence.
  - intros c o Hin. specialize (F _ Hin).
    inversion F; try path_clash. congruence.
Qed.

(** The plain answers ask for no error handler; the run goes through
    and writes app.js and package.json only. *)
Lemma no_error_handler_witness :
  prompt plainWorld questions = Ok plain /\
  useErrorHandler plain = false /\
  (createApp_try plainWorld (initial empty_cwd)).1 = Ok tt /\
  (forall pre post,
     baseFileContent plain <> pre +:+ "errorMiddleware" +:+ post) /\
  (forall c o,
     ~ In (EvWrite "./api/middlewares/error.js" c o)
         (journal (run plainWorld empty_cwd).2)) /\
  (forall c o,
     ~ In (EvWrite "./api/utils/errorHandler.js" c o)
         (journal (run plainWorld empty_cwd).2)).
Proof.
  assert (P : prompt plainWorld questions = Ok plain) by reflexivity.
  assert (E : useErrorHandler plain = false) by reflexivity.
  destruct (no_error_handler_no_error_files plainWorld empty_cwd plain P E)
    as (_ & _ & _ & T & W1 & W2).
  split; [exact P|]. split; [exact E|]. split; [vm_compute; reflexivity|].
  split; [exact T|]. split; [exact W1 | exact W2].
Defined.

(** *** C6 *)

(** C6.  With [useCors] true, the import list has the framework import
    first, the CORS import second and the env-loader import, when there
    is one, somewhere after it; the middleware list is the JSON and
    URL-encoded registrations followed by the CORS registration; and
    app.js is assembled from these two lists joined by line feeds. *)
Theorem cors_lines_in_order (a : Answer) :
  useCors a = true ->
  importLines a !! 0%nat = Some expressImport /\
  importLines a !! 1%nat = Some corsImport /\
  (forall j, importLines a !! j = Some dotenvImport -> 1 < j) /\
  middlewareLines a = [jsonMiddleware; urlencodedMiddleware; corsMiddleware] /\
  baseFileContent a
  = join nl (importLines a) +:+ baseFileMiddle a
    +:+ join nl (middlewareLines a) +:+ baseFileTail a.
Proof.
  intros Hc. destruct a as [n c e v]. simpl in Hc. subst c.
  unfold importLines, middlewareLines. simpl.
  repeat split.
  intros j Hj. destruct j as [|[|j]]; [| |lia].
  - vm_compute in Hj. discriminate Hj.
  - destruct e, v; vm_compute in Hj; discriminate Hj.
Qed.

(** The demo answers ask for CORS and for an environment file: the
    CORS import is second, the env-loader import fourth. *)
Lemma cors_lines_witness :
  useCors demo = true /\
  importLines demo !! 1%nat = Some corsImport /\
  importLines demo !! 3%nat = Some dotenvImport /\
  middlewareLines demo
  = [jsonMiddleware; urlencodedMiddleware; corsMiddleware].
Proof.
  assert (C : useCors demo = true) by reflexivity.
  destruct (cors_lines_in_order demo C) as (_ & I & _ & M & _).
  split; [exact C|]. split; [exact I|]. split; [reflexivity | exact M].
Defined.

(** *** C7 *)

(** C7.  The demo answers with the four packages resolved at the given
    versions: the manifest written is [demoManifest], whose
    dependencies object has the three entries and whose
    devDependencies object has the one; app.js starts with the four
    import lines in order; .env holds PORT=5000. *)
Theorem demo_run_output :
  let r := run demoWorld empty_cwd in
  Promise_all 0 (dependenciesPromise demoWorld demo)
  = Ok [ {| dep_name := "express"; dep_version := "4.18.0" |};
         {| dep_name := "cors"; dep_version := "2.8.5" |};
         {| dep_name := "dotenv"; dep_version := "16.0.0" |} ] /\
  Promise_all 0 (devDependenciesPromise demoWorld)
  = Ok [ {| dep_name := "nodemon"; dep_version := "3.0.0" |} ] /\
  fs r.2 !! "./demo/package.json" = Some (File demoManifest) /\
  (exists head,
     demoManifest
     = head +:+ q "dependencies" +:+ ": {" +:+ nl +:+ sp 12
       +:+ q "express" +:+ ": " +:+ q "4.18.0" +:+ ","
       +:+ q "cors" +:+ ": " +:+ q "2.8.5" +:+ ","
       +:+ q "dotenv" +:+ ": " +:+ q "16.0.0" +:+ nl +:+ sp 8 +:+ "}," +:+ nl
       +:+ sp 8 +:+ q "devDependencies" +:+ ": {" +:+ nl +:+ sp 12
       +:+ q "nodemon" +:+ ": " +:+ q "3.0.0" +:+ nl +:+ sp 8 +:+ "},"
       +:+ nl +:+ sp 4 +:+ "}") /\
  importLines demo
  = [expressImport; corsImport; errorMiddlewareImport; dotenvImport] /\
  (exists rest,
     fs r.2 !! "./demo/app.js"
     = Some (File (expressImport +:+ nl +:+ corsImport +:+ nl
                   +:+ errorMiddlewareImport +:+ nl +:+ dotenvImport
                   +:+ nl +:+ rest))) /\
  fs r.2 !! "./demo/.env" = Some (File "PORT=5000").
Proof.
  cbv zeta.
  split; [reflexivity|]. split; [reflexivity|].
  split; [vm_compute; reflexivity|].
  split.
  { exists (String.substring 0 310 demoManifest). vm_compute. reflexivity. }
  split; [reflexivity|].
  split; [|vm_compute; reflexivity].
  destruct (prefix_true
              (expressImport +:+ nl +:+ corsImport +:+ nl
               +:+ errorMiddlewareImport +:+ nl +:+ dotenvImport +:+ nl)
              (baseFileContent demo)) as [rest E];
    [vm_compute; reflexivity|].
  exists rest.
  assert (L : fs (run demoWorld empty_cwd).2 !! "./demo/app.js"
              = Some (File (baseFileContent demo)))
    by (vm_compute; reflexivity).
  rewrite L, E. reflexivity.
Qed.

(** *** C8 *)

(** C8.  Two runs that were given the same answers and resolved the
    same descriptors write the same manifest text, whatever the file
    systems they ran on and whatever else differed: the text is
    [packageJsonContent] of the project name and the two descriptor
    lists, and of nothing else. *)
Theorem manifest_text_is_determined
    {FS1 FS2 : Type} `{FileSystem FS1} `{FileSystem FS2}
    (w1 w2 : World) (fs1 : FS1) (fs2 : FS2) a ds dds c1 c2 o1 o2 :
  prompt w1 questions = Ok a ->
  prompt w2 questions = Ok a ->
  Promise_all (firstToReject w1) (dependenciesPromise w1 a) = Ok ds ->
  Promise_all (firstToReject w2) (dependenciesPromise w2 a) = Ok ds ->
  Promise_all (firstToReject w1) (devDependenciesPromise w1) = Ok dds ->
  Promise_all (firstToReject w2) (devDependenciesPromise w2) = Ok dds ->
  In (EvWrite (projectDirOf a +:+ "/package.json") c1 o1)
    (journal (run w1 fs1).2) ->
  In (EvWrite (projectDirOf a +:+ "/package.json") c2 o2)
    (journal (run w2 fs2).2) ->
  c1 = c2 /\
  c1 = packageJsonContent (name a) (map dependencyEntry ds)
         (map dependencyEntry dds).
Proof.
  intros Hp1 Hp2 Hd1 Hd2 Hv1 Hv2 I1 I2.
  pose proof (run_events w1 a fs1 Hp1) as F1.
  pose proof (run_events w2 a fs2 Hp2) as F2.
  rewrite List.Forall_forall in F1, F2.
  specialize (F1 _ I1). specialize (F2 _ I2).
  inversion F1; try path_clash. inversion F2; try path_clash.
  subst. split; congruence.
Qed.

(** The demo answers on an empty directory and on a prepared root,
    with different settling orders: one manifest text. *)
Lemma manifest_text_witness :
  In (EvWrite "./demo/package.json" demoManifest None)
    (journal (run demoWorld empty_cwd).2) /\
  In (EvWrite "./demo/package.json"
        (packageJsonContent "demo"
           (map dependencyEntry
              (fulfilled (dependenciesPromise demoWorld' demo)))
           (map dependencyEntry
              (fulfilled (devDependenciesPromise demoWorld'))))
        None)
    (journal (run demoWorld' prepared).2) /\
  demoManifest
  = packageJsonContent "demo"
      (map dependencyEntry (fulfilled (dependenciesPromise demoWorld' demo)))
      (map dependencyEntry (fulfilled (devDependenciesPromise demoWorld'))).
Proof.
  assert (I1 : In (EvWrite (projectDirOf demo +:+ "/package.json")
                     demoManifest None)
                 (journal (run demoWorld empty_cwd).2))
    by (vm_compute; pick_event).
  assert (I2 : In (EvWrite (projectDirOf demo +:+ "/package.json")
                     (packageJsonContent "demo"
                        (map dependencyEntry
                           (fulfilled (dependenciesPromise demoWorld' demo)))
                        (map dependencyEntry
                           (fulfilled (devDependenciesPromise demoWorld'))))
                     None)
                 (journal (run demoWorld' prepared).2))
    by (vm_compute; pick_event).
  split; [exact I1|]. split; [exact I2|].
  exact (proj1 (manifest_text_is_determined demoWorld demoWorld'
                  empty_cwd prepared demo _ _ _ _ _ _
                  eq_refl eq_refl eq_refl eq_refl eq_refl eq_refl I1 I2)).
Defined.

(** *** C9 *)

(** C9.  Every manifest text a run writes to package.json has a comma
    right after the brace that closes the devDependencies object,
    followed only by white space and the final closing brace; no such
    text is a JSON text. *)
Theorem written_manifest_has_trailing_comma
    {FS : Type} `{FileSystem FS} (w : World) (fs0 : FS) a c o :
  prompt w questions = Ok a ->
  In (EvWrite (projectDirOf a +:+ "/package.json") c o)
    (journal (run w fs0).2) ->
  (exists pre entries,
     c = pre +:+ q "devDependencies" +:+ ": {" +:+ nl +:+ sp 12
         +:+ entries +:+ nl +:+ sp 8 +:+ "}" +:+ ","
         +:+ nl +:+ sp 4 +:+ "}") /\
  ~ Json.valid c.
Proof.
  intros Hp Hin.
  pose proof (run_events w a fs0 Hp) as F.
  rewrite List.Forall_forall in F. specialize (F _ Hin).
  inversion F; try path_clash. subst.
  destruct (packageJsonContent_trailing_comma (name a)
              (map dependencyEntry ds) (map dependencyEntry dds))
    as [[pre E] N].
  split; [|exact N]. now exists pre, (join "," (map dependencyEntry dds)).
Qed.

(** The manifest of the demo run is not JSON. *)
Lemma trailing_comma_witness :
  prompt demoWorld questions = Ok demo /\
  In (EvWrite "./demo/package.json" demoManifest None)
    (journal (run demoWorld empty_cwd).2) /\
  ~ Json.valid demoManifest.
Proof.
  assert (P : prompt demoWorld questions = Ok demo) by reflexivity.
  assert (I : In (EvWrite (projectDirOf demo +:+ "/package.json")
                    demoManifest None)
                (journal (run demoWorld empty_cwd).2))
    by (vm_compute; pick_event).
  split; [exact P|]. split; [exact I|].
  exact (proj2 (written_manifest_has_trailing_comma demoWorld empty_cwd
                  demo demoManifest None P I)).
Defined.

(** *** C10 *)

(** C10.  With [useEnvFile] true, the run writes the environment file
    at [.env] under the project root, with PORT=5000 in it: the write
    has returned by the time app.js is written, and it is missing only
    from a run in which an [fs] call failed before app.js was reached.
    The app.js it renders loads [./env] instead: a path under the same
    root that no run writes, and not the path of the file written. *)
Theorem env_file_written_is_not_the_one_loaded
    {FS : Type} `{FileSystem FS} (w : World) (fs0 : FS) a :
  prompt w questions = Ok a ->
  useEnvFile a = true ->
  (In (EvWrite (projectDirOf a +:+ "/.env") envFileContent None)
     (journal (run w fs0).2) \/
   ((exists ev e, In ev (journal (run w fs0).2) /\ failure ev = Some e) /\
    forall c o,
      ~ In (EvWrite (projectDirOf a +:+ "/app.js") c o)
          (journal (run w fs0).2))) /\
  (forall c o,
     In (EvWrite (projectDirOf a +:+ "/app.js") c o)
       (journal (run w fs0).2) ->
     c = baseFileContent a /\
     In (EvWrite (projectDirOf a +:+ "/.env") envFileContent None)
       (journal (run w fs0).2)) /\
  (forall c o,
     In (EvWrite (projectDirOf a +:+ "/.env") c o)
       (journal (run w fs0).2) ->
     c = envFileContent) /\
  (exists pre post,
     baseFileContent a
     = pre +:+ "dotenv.config({path: './env'});" +:+ post) /\
  (forall c o,
     ~ In (EvWrite (projectDirOf a +:+ "/env") c o)
         (journal (run w fs0).2)) /\
  projectDirOf a +:+ "/env" <> projectDirOf a +:+ "/.env".
Proof.
  intros Hp He.
  pose proof (run_events w a fs0 Hp) as F.
  rewrite List.Forall_forall in F.
  assert (R : In (EvWrite (projectDirOf a +:+ "/.env") envFileContent None)
                (journal (run w fs0).2) \/
              ((exists ev e,
                  In ev (journal (run w fs0).2) /\ failure ev = Some e) /\
               forall c o,
                 ~ In (EvWrite (projectDirOf a +:+ "/app.js") c o)
                     (journal (run w fs0).2))).
  { rewrite run_journal.
    destruct (createApp_try_reaches_env w a Hp He (initial fs0))
      as (evs & E & [I|[(ev & e & I & Fe) N]]);
      simpl in E; rewrite E.
    - left. apply in_app_iff. now left.
    - right. split.
      + exists ev, e. split; [apply in_app_iff; now left | exact Fe].
      + intros c o I'. rewrite List.Forall_forall in N.
        apply in_app_iff in I' as [I'|I'].
        * apply (N _ I'). now exists c, o.
        * destruct (createApp_try w (initial fs0)).1; [destruct I'|].
          destruct I' as [I'|[]]. discriminate I'. }
  split; [exact R|]. split; [|split; [|split; [|split]]].
  - intros c o Hin. split.
    + specialize (F _ Hin). inversion F; try path_clash. reflexivity.
    + destruct R as [I|[_ N]]; [exact I | now destruct (N c o)].
  - intros c o Hin. specialize (F _ Hin).
    inversion F; try path_clash. reflexivity.
  - apply occurs_true. destruct a as [n c e v]. simpl in He. subst v.
    destruct c, e; vm_compute; reflexivity.
  - intros c o Hin. specialize (F _ Hin). inversion F; path_clash.
  - apply sibling_paths. discriminate.
Qed.

(** The demo answers with the cors lookup failing: the run ends with
    the error, app.js and ./demo/.env are written all the same (the
    tree holds .env with PORT=5000), and ./demo/env never is. *)
Lemma env_file_witness :
  prompt corsDownWorld questions = Ok demo /\
  useEnvFile demo = true /\
  (createApp_try corsDownWorld (initial empty_cwd)).1
  = Throw (LookupError "cors" "getaddrinfo ENOTFOUND registry.npmjs.org") /\
  In (EvWrite "./demo/app.js" (baseFileContent demo) None)
    (journal (run corsDownWorld empty_cwd).2) /\
  In (EvWrite "./demo/.env" "PORT=5000" None)
    (journal (run corsDownWorld empty_cwd).2) /\
  fs (run corsDownWorld empty_cwd).2 !! "./demo/.env"
  = Some (File "PORT=5000") /\
  fs (run corsDownWorld empty_cwd).2 !! "./demo/env" = None /\
  forall c o,
    ~ In (EvWrite "./demo/env" c o) (journal (run corsDownWorld empty_cwd).2).
Proof.
  assert (P : prompt corsDownWorld questions = Ok demo) by reflexivity.
  assert (E : useEnvFile demo = true) by reflexivity.
  assert (A : In (EvWrite (projectDirOf demo +:+ "/app.js")
                    (baseFileContent demo) None)
                (journal (run corsDownWorld empty_cwd).2))
    by (vm_compute; pick_event).
  destruct (env_file_written_is_not_the_one_loaded corsDownWorld empty_cwd
              demo P E) as (_ & W & _ & _ & N & _).
  split; [exact P|]. split; [exact E|]. split; [vm_compute; reflexivity|].
  split; [exact A|]. split; [exact (proj2 (W _ _ A))|].
  split; [vm_compute; reflexivity|]. split; [vm_compute; reflexivity|].
  exact N.
Defined.

(** ** Further properties of the generator *)

Lemma returned {A B} (p : A * B) (a : A) : p.1 = a -> p = (a, p.2).
Proof. intros <-. now destruct p. Qed.

(** *** X1 *)

(** X1.  Every [fs] call of a run names a path of the fixed layout
    under the project root: [mkdirSync] the root or one of its six
    subdirectories (and only when the root was absent), [writeFileSync]
    one of the five files. *)
Theorem fs_calls_stay_in_layout
    {FS : Type} `{FileSystem FS} (w : World) (fs0 : FS) a ev :
  prompt w questions = Ok a ->
  In ev (journal (run w fs0).2) ->
  match ev with
  | EvMkdir p _ =>
      existsSync (projectDirOf a) fs0 = false /\
      exists d, In d layoutDirs /\ p = projectDirOf a +:+ d
  | EvWrite p _ _ => exists f, In f layoutFiles /\ p = projectDirOf a +:+ f
  | EvLog _ => True
  end.
Proof.
  intros Hp Hin.
  pose proof (run_events w a fs0 Hp) as F.
  rewrite List.Forall_forall in F. specialize (F _ Hin).
  destruct F as [x|p o Hn Hd| | | | |]; try exact I.
  - split; [exact Hn|]. unfold projectDirs in Hd. simpl in Hd.
    destruct Hd as [<-|Hd];
      [exists ""; split; [now left | now rewrite append_nil_r]|].
    repeat (destruct Hd as [<-|Hd];
            [eexists; split; [|reflexivity]; simpl; tauto|]).
    destruct Hd.
  - eexists; split; [|reflexivity]; simpl; tauto.
  - eexists; split; [|reflexivity]; simpl; tauto.
  - eexists; split; [|reflexivity]; simpl; tauto.
  - eexists; split; [|reflexivity]; simpl; tauto.
  - eexists; split; [|reflexivity]; simpl; tauto.
Qed.

Lemma fs_calls_stay_in_layout_witness :
  prompt demoWorld questions = Ok demo /\
  In (EvMkdir "./demo/lib" None) (journal (run demoWorld empty_cwd).2) /\
  existsSync "./demo" empty_cwd = false /\
  exists d, In d layoutDirs /\ "./demo/lib" = "./demo" +:+ d.
Proof.
  assert (P : prompt demoWorld questions = Ok demo) by reflexivity.
  assert (I : In (EvMkdir "./demo/lib" None)
                (journal (run demoWorld empty_cwd).2))
    by (vm_compute; pick_event).
  split; [exact P|]. split; [exact I|].
  exact (fs_calls_stay_in_layout demoWorld empty_cwd demo _ P I).
Defined.

(** *** X2 *)

(** X2.  A run stops at its first failing [fs] call: every call before
    it returned, and the only thing the run does after it is print its
    error. *)
Theorem first_failure_ends_the_run
    {FS : Type} `{FileSystem FS} (w : World) (fs0 : FS) pre ev post e :
  journal (run w fs0).2 = pre ++ ev :: post ->
  failure ev = Some e ->
  Forall (fun x => failure x = None) pre /\
  post = [EvLog (LogError e)].
Proof.
  intros J Fe. rewrite run_journal in J.
  destruct (createApp_try_orderly w (initial fs0)) as (evs & E & O).
  simpl in E. rewrite E in J.
  destruct (createApp_try w (initial fs0)).1 as [[]|e0].
  - rewrite app_nil_r in J. rewrite List.Forall_forall in O.
    assert (I : In ev evs) by (rewrite J; apply in_app_iff; right; now left).
    specialize (O _ I). congruence.
  - destruct O as [O|(pre0 & last & -> & Fp & Fl)].
    + assert (A : Forall (fun x => failure x = None)
                    (evs ++ [EvLog (LogError e0)]))
        by (apply Forall_app; split; [exact O | repeat constructor]).
      rewrite List.Forall_forall in A.
      assert (I : In ev (evs ++ [EvLog (LogError e0)]))
        by (rewrite J; apply in_app_iff; right; now left).
      specialize (A _ I). congruence.
    + rewrite <- app_assoc in J. simpl in J. symmetry in J.
      destruct (failure_position _ _ _ _ _ _ _ J Fe Fp) as (-> & -> & ->);
        [repeat constructor|].
      split; [exact Fp|]. congruence.
Qed.

Lemma first_failure_witness :
  journal (run demoWorld leftover).2
  = [EvLog (LogText
       (Plain "Create an Express.js project from this CLI TOOL! 🚀"))]
    ++ EvWrite "./demo/middlewares/error.js" jsErrorMiddleware
         (Some (FsError "open" "ENOENT" "./demo/middlewares/error.js"))
    :: [EvLog (LogError
                 (FsError "open" "ENOENT" "./demo/middlewares/error.js"))] /\
  Forall (fun x => failure x = None)
    [EvLog (LogText
       (Plain "Create an Express.js project from this CLI TOOL! 🚀"))].
Proof.
  assert (J : journal (run demoWorld leftover).2
              = [EvLog (LogText
                   (Plain "Create an Express.js project from this CLI TOOL! 🚀"))]
                ++ EvWrite "./demo/middlewares/error.js" jsErrorMiddleware
                     (Some (FsError "open" "ENOENT"
                              "./demo/middlewares/error.js"))
                :: [EvLog (LogError
                             (FsError "open" "ENOENT"
                                "./demo/middlewares/error.js"))])
    by (vm_compute; reflexivity).
  split; [exact J|].
  exact (proj1 (first_failure_ends_the_run demoWorld leftover _ _ _ _
                  J eq_refl)).
Defined.

(** *** X3 *)

(** X3.  A run whose [try] block reaches its end has made exactly the
    calls of [successJournal], in that order: the banner, the seven
    [mkdirSync] calls when the root was absent, the two error files
    when asked for, .env when asked for, app.js, package.json built
    from the registry's answers, and the eight lines of the summary. *)
Theorem successful_run_calls
    {FS : Type} `{FileSystem FS} (w : World) (fs0 : FS) s1 :
  createApp_try w (initial fs0) = (Ok tt, s1) ->
  exists a ds dds,
    prompt w questions = Ok a /\
    map Ok ds = dependenciesPromise w a /\
    map Ok dds = devDependenciesPromise w /\
    journal (run w fs0).2
    = successJournal a (existsSync (projectDirOf a) fs0) ds dds.
Proof.
  intros Hok.
  destruct (createApp_try_success w _ _ Hok)
    as (a & ds & dds & Hp & Hd & Hv & J).
  exists a, ds, dds. split; [exact Hp|].
  split; [exact (Promise_all_values _ _ _ Hd)|].
  split; [exact (Promise_all_values _ _ _ Hv)|].
  rewrite run_journal, Hok. simpl. rewrite app_nil_r. exact J.
Qed.

Lemma successful_run_witness :
  createApp_try plainWorld (initial empty_cwd)
  = (Ok tt, (createApp_try plainWorld (initial empty_cwd)).2) /\
  exists a ds dds,
    prompt plainWorld questions = Ok a /\
    map Ok ds = dependenciesPromise plainWorld a /\
    map Ok dds = devDependenciesPromise plainWorld /\
    journal (run plainWorld empty_cwd).2
    = successJournal a (existsSync (projectDirOf a) empty_cwd) ds dds.
Proof.
  assert (R : createApp_try plainWorld (initial empty_cwd)
              = (Ok tt, (createApp_try plainWorld (initial empty_cwd)).2))
    by (apply returned; vm_compute; reflexivity).
  split; [exact R|].
  exact (successful_run_calls plainWorld empty_cwd _ R).
Defined.

(** *** X4 *)



(** *** X5 *)

(** X5.  A run prints an error exactly when its [try] block threw, and
    prints the line that reports success exactly when the block reached
    its end: never both, never neither. *)
Theorem run_prints_success_or_error
    {FS : Type} `{FileSystem FS} (w : World) (fs0 : FS) :
  ((exists e, In (EvLog (LogError e)) (journal (run w fs0).2)) <->
   (exists e, (createApp_try w (initial fs0)).1 = Throw e)) /\
  ((exists n, In (EvLog (successLine n)) (journal (run w fs0).2)) <->
   (createApp_try w (initial fs0)).1 = Ok tt).
Proof.
  rewrite run_journal.
  destruct (createApp_try_prints_no_error w (initial fs0)) as (evs & E & F).
  simpl in E. rewrite List.Forall_forall in F.
  pose proof (createApp_try_on_throw w (initial fs0)) as T.
  destruct (createApp_try w (initial fs0)) as [[[]|e0] s1] eqn:R; simpl in *.
  - rewrite app_nil_r. split; split.
    + intros [e I]. rewrite E in I. now destruct (F _ I e).
    + intros [e D]. discriminate D.
    + reflexivity.
    + intros _.
      destruct (createApp_try_success w _ _ R)
        as (a & ds & dds & _ & _ & _ & J).
      exists (name a). rewrite J. apply in_app_iff. right.
      unfold successJournal. rewrite !in_app_iff.
      right. right. right. right. right. right. left. reflexivity.
  - split; split.
    + intros _. now exists e0.
    + intros _. exists e0. apply in_app_iff. right. now left.
    + intros [n I]. destruct (T e0 eq_refl) as (evs' & E' & F').
      rewrite E in E'. simpl in E'. subst evs'.
      rewrite List.Forall_forall in F'.
      rewrite E in I. apply in_app_iff in I as [I|[I|[]]].
      * now destruct (F' _ I n).
      * discriminate I.
    + discriminate.
Qed.

(** *** X6 *)

(** X6.  A run depends on the registry only through the packages it
    asks about: express, nodemon, and cors or dotenv when the answers
    ask for them.  Two worlds that agree on the prompt, on those
    packages and on the settling order give the same run, whatever the
    registry says about anything else. *)
Theorem run_ignores_unrequested_packages
    {FS : Type} `{FileSystem FS} (w1 w2 : World) (fs0 : FS) :
  prompt w1 questions = prompt w2 questions ->
  firstToReject w1 = firstToReject w2 ->
  (forall a p, prompt w1 questions = Ok a -> In p (requested a) ->
               getLatestVersion w1 p = getLatestVersion w2 p) ->
  run w1 fs0 = run w2 fs0.
Proof.
  intros Hp Hf G.
  assert (T : forall s, createApp_try w1 s = createApp_try w2 s).
  { intros s. unfold createApp_try.
    rewrite !bind_log, !bind_await, <- Hp, <- Hf.
    destruct (prompt w1 questions) as [a|e] eqn:Pa; [|reflexivity].
    destruct (batches_agree w1 w2 a (fun p => G a p eq_refl)) as [GD GV].
    cbv zeta. now rewrite GD, GV. }
  unfold run, main, createApp, try_catch. now rewrite T.
Qed.

Lemma unrequested_packages_witness :
  let w' := {| prompt := fun _ => Ok plain;
               getLatestVersion := registry_cors_down;
               firstToReject := 0 |} in
  getLatestVersion plainWorld "cors" <> getLatestVersion w' "cors" /\
  run plainWorld empty_cwd = run w' empty_cwd.
Proof.
  cbv zeta. split; [discriminate|].
  apply run_ignores_unrequested_packages; [reflexivity | reflexivity |].
  intros a p Pa Ip. injection Pa as <-.
  simpl in Ip. destruct Ip as [<-|[<-|[]]]; reflexivity.
Defined.

(** *** X7 *)



(** *** X8 *)



(** *** X9 *)

(** X9.  With [useErrorHandler] true, app.js registers the error
    middleware once, below its import, after every route and every
    other [app.use], and before [app.listen]. *)
Theorem error_middleware_is_registered_last (a : Answer) :
  useErrorHandler a = true ->
  exists above below,
    baseFileContent a = above +:+ errorMiddlewareUse +:+ below /\
    occurs errorMiddlewareImport above = true /\
    occurs "app.get(" above = true /\
    occurs "app.listen(" above = false /\
    occurs "app.get(" below = false /\
    occurs "app.use(" below = false /\
    occurs "app.listen(" below = true.
Proof.
  intros He. destruct a as [n c e v]. simpl in He. subst e.
  eexists (before errorMiddlewareUse (baseFileContent _)),
          (after errorMiddlewareUse (baseFileContent _)).
  split; [apply cut_parts; destruct c, v; vm_compute; discriminate|].
  destruct c, v; vm_compute; repeat split.
Qed.

Lemma error_middleware_witness :
  useErrorHandler demo = true /\
  exists above below,
    baseFileContent demo = above +:+ errorMiddlewareUse +:+ below /\
    occurs "app.get(" below = false /\
    occurs "app.listen(" below = true.
Proof.
  assert (E : useErrorHandler demo = true) by reflexivity.
  destruct (error_middleware_is_registered_last demo E)
    as (above & below & T & _ & _ & _ & G & _ & L).
  split; [exact E|]. now exists above, below.
Defined.

(** *** X10 *)

(** X10.  Whatever a run writes to package.json is rendered from the
    registry's own answers, in the order asked: express, then cors and
    dotenv when requested, so one to three dependency entries, and the
    one nodemon entry under devDependencies. *)
Theorem manifest_lists_the_registry_answers
    {FS : Type} `{FileSystem FS} (w : World) (fs0 : FS) a c o :
  prompt w questions = Ok a ->
  In (EvWrite (projectDirOf a +:+ "/package.json") c o)
    (journal (run w fs0).2) ->
  exists ds dds,
    map Ok ds = dependenciesPromise w a /\
    map Ok dds = [getLatestVersion w "nodemon"] /\
    c = packageJsonContent (name a) (map dependencyEntry ds)
          (map dependencyEntry dds) /\
    length ds
    = 1 + (if useCors a then 1 else 0) + (if useEnvFile a then 1 else 0) /\
    length dds = 1.
Proof.
  intros Hp Hin.
  pose proof (run_events w a fs0 Hp) as F.
  rewrite List.Forall_forall in F. specialize (F _ Hin).
  inversion F as [| | | | | |ds dds o' Hd Hv]; try path_clash. subst.
  apply Promise_all_values in Hd, Hv.
  exists ds, dds. split; [exact Hd|]. split; [exact Hv|].
  split; [reflexivity|].
  apply (f_equal (@length _)) in Hd, Hv.
  rewrite length_map in Hd, Hv. rewrite Hd, Hv.
  unfold dependenciesPromise.
  destruct (useCors a), (useEnvFile a); split; reflexivity.
Qed.

Lemma manifest_answers_witness :
  prompt demoWorld questions = Ok demo /\
  In (EvWrite "./demo/package.json" demoManifest None)
    (journal (run demoWorld empty_cwd).2) /\
  exists ds dds,
    map Ok ds = dependenciesPromise demoWorld demo /\
    map Ok dds = [getLatestVersion demoWorld "nodemon"] /\
    demoManifest
    = packageJsonContent "demo" (map dependencyEntry ds)
        (map dependencyEntry dds) /\
    length ds = 3 /\ length dds = 1.
Proof.
  assert (P : prompt demoWorld questions = Ok demo) by reflexivity.
  assert (I : In (EvWrite (projectDirOf demo +:+ "/package.json")
                    demoManifest None)
                (journal (run demoWorld empty_cwd).2))
    by (vm_compute; pick_event).
  split; [exact P|]. split; [exact I|].
  exact (manifest_lists_the_registry_answers demoWorld empty_cwd demo
           demoManifest None P I).
Defined.

(** *** X11 *)

(** X11.  A closed prompt aborts the run before it touches anything:
    the run makes no [fs] call and hands the file system back as it
    was. *)
Theorem closed_prompt_touches_nothing
    {FS : Type} `{FileSystem FS} (w : World) (fs0 : FS) e :
  prompt w questions = Throw e ->
  fs (run w fs0).2 = fs0 /\
  forall ev, In ev (journal (run w fs0).2) -> is_fs_call ev = false.
Proof.
  intros Hp. split.
  - unfold run. rewrite main_createApp. unfold createApp, try_catch.
    now rewrite (createApp_try_aborted w e _ Hp).
  - rewrite (run_aborted w e fs0 Hp). intros ev [<-|[<-|[]]]; reflexivity.
Qed.

Lemma closed_prompt_witness :
  prompt abortedWorld questions = Throw closed /\
  fs (run abortedWorld leftover).2 = leftover.
Proof.
  assert (P : prompt abortedWorld questions = Throw closed) by reflexivity.
  split; [exact P|].
  exact (proj1 (closed_prompt_touches_nothing abortedWorld leftover closed P)).
Defined.

(** *** X12 *)

(** X12.  Every error a run prints has a cause outside the generator:
    it is what the prompt rejected with, or what an [fs] call of the
    run threw, or what one of the two lookup batches rejected with. *)
Theorem printed_error_has_a_cause
    {FS : Type} `{FileSystem FS} (w : World) (fs0 : FS) e :
  In (EvLog (LogError e)) (journal (run w fs0).2) ->
  prompt w questions = Throw e \/
  (exists ev, In ev (journal (run w fs0).2) /\ failure ev = Some e) \/
  exists a,
    prompt w questions = Ok a /\
    (Promise_all (firstToReject w) (dependenciesPromise w a) = Throw e \/
     Promise_all (firstToReject w) (devDependenciesPromise w) = Throw e).
Proof.
  intros I. rewrite run_journal in I |- *.
  destruct (createApp_try_prints_no_error w (initial fs0)) as (evs & E & F).
  destruct (createApp_try_blames w (initial fs0)) as (evs' & E' & B).
  rewrite E in E'. apply app_inv_head in E'. subst evs'.
  simpl in E. rewrite List.Forall_forall in F.
  apply in_app_iff in I as [I|I];
    [rewrite E in I; now destruct (F _ I e)|].
  destruct (createApp_try w (initial fs0)).1 as [[]|e0]; [destruct I|].
  destruct I as [I|[]]. injection I as ->.
  destruct (B e eq_refl) as [[P|P]|(ev & Iev & Fe)].
  - now left.
  - right. right. exact P.
  - right. left. exists ev. split; [|exact Fe].
    apply in_app_iff. left. now rewrite E.
Qed.

Lemma printed_error_witness :
  In (EvLog (LogError
               (LookupError "cors" "getaddrinfo ENOTFOUND registry.npmjs.org")))
    (journal (run corsDownWorld empty_cwd).2) /\
  Promise_all (firstToReject corsDownWorld)
    (dependenciesPromise corsDownWorld demo)
  = Throw (LookupError "cors" "getaddrinfo ENOTFOUND registry.npmjs.org") /\
  (prompt corsDownWorld questions
   = Throw (LookupError "cors" "getaddrinfo ENOTFOUND registry.npmjs.org") \/
   (exists ev,
      In ev (journal (run corsDownWorld empty_cwd).2) /\
      failure ev
      = Some (LookupError "cors" "getaddrinfo ENOTFOUND registry.npmjs.org")) \/
   exists a,
     prompt corsDownWorld questions = Ok a /\
     (Promise_all (firstToReject corsDownWorld)
        (dependenciesPromise corsDownWorld a)
      = Throw (LookupError "cors" "getaddrinfo ENOTFOUND registry.npmjs.org") \/
      Promise_all (firstToReject corsDownWorld)
        (devDependenciesPromise corsDownWorld)
      = Throw (LookupError "cors"
                 "getaddrinfo ENOTFOUND registry.npmjs.org"))).
Proof.
  assert (I : In (EvLog (LogError
                    (LookupError "cors"
                       "getaddrinfo ENOTFOUND registry.npmjs.org")))
                (journal (run corsDownWorld empty_cwd).2))
    by (vm_compute; pick_event).
  split; [exact I|]. split; [reflexivity|].
  exact (printed_error_has_a_cause corsDownWorld empty_cwd _ I).
Defined.

(** *** X13, X14 *)

Module GeneratedCode.
Import ErrorMiddleware ErrorHandlerClass.

(** X13.  The reply of the error middleware is never blank: its
    status code and its message are truthy whatever the error held,
    and sending the same error through again changes nothing. *)
Theorem reply_is_never_blank (envMode : string) (err : Err) :
  let r := errorMiddleware envMode err in
  truthy (status r) = true /\
  truthy (res_message (json r)) = true /\
  errorMiddleware envMode
    {| err_message := res_message (json r); err_statusCode := status r |}
  = r.
Proof.
  destruct err as [m c]. unfold errorMiddleware, or. simpl.
  destruct (truthy m) eqn:Tm, (truthy c) eqn:Tc,
    (String.eqb envMode "DEVELOPMENT"); simpl;
    rewrite ?Tm, ?Tc; simpl; repeat split; reflexivity.
Qed.

(** X14.  An [ErrorHandler] sent through the middleware: the reply
    carries the message it was built with, "something went wrong" when
    it was built without one, and "Internal Server Error" when it was
    built with the empty string (the class defaults an absent message,
    the middleware a falsy one); the status code is the one given, or
    500 when that is falsy. *)
Theorem ErrorHandler_through_middleware
    (envMode : string) (statusCode : value) (message : option string) :
  let r := errorMiddleware envMode (ErrorHandler statusCode message) in
  res_message (json r)
  = Str match message with
        | None => "something went wrong"
        | Some EmptyString => "Internal Server Error"
        | Some m => m
        end /\
  status r = (if truthy statusCode then statusCode else Num 500).
Proof.
  unfold errorMiddleware, ErrorHandler, or. simpl.
  destruct message as [[|c m]|]; simpl;
    destruct (String.eqb envMode "DEVELOPMENT"); simpl; split; reflexivity.
Qed.

End GeneratedCode.
